(** * carm-plotter: the CARM builder (builder.py)

    A shallow embedding of [get_bandwidth] and [get_peak_performance] and
    the properties of the two extractors.

    Numbers.  Byte counts, operation counts, cycle counts and the clock
    frequency are Python ints: [Z].  Rates are Python floats, and the
    functions are embedded twice.

    The first embedding computes with exact rationals in canonical form
    ([Qc], whose equality is Leibniz equality): rounding, overflow,
    infinities and NaN are idealised away, the literal 0.2 is the
    rational 1/5, and the keys of a sweep are already ints.  It carries
    the scenarios, whose numbers are the same in binary64, and the
    properties of the clustering pass.

    The second embedding ([Builder]) is written over the operations that
    the code asks of the interpreter ([Runtime]): reading a key with
    [int()], the quotient of two ints, the product of an int and a
    float, sums, differences, absolute values and comparisons of floats.
    What is proved of it holds whatever these operations compute;
    [B64] gives them as CPython computes them, on IEEE 754 binary64
    numbers with [OverflowError], infinities and NaN.

    Errors.  A Python exception is an [exn]; a computation that may raise
    is a [result].

    Plotting.  Both extractors are modelled with [plot = False]: the
    plotting branch draws and does not change the returned value. *)

From Stdlib Require Import ZArith QArith Qabs Qcanon Lia.
From Stdlib Require Qcabs.
From Stdlib Require Import SpecFloat.
From stdpp Require Import base numbers decidable option list strings gmap.

(** * The model

    ** Exceptions and the error monad *)

(** The built-in exceptions that statements of builder.py can raise, and
    [InvalidInput], the error kind that the specification names for bad
    input.  No statement of builder.py raises [InvalidInput]: the module
    defines no exception class and validates nothing. *)
Inductive exn : Set :=
  | ZeroDivisionError
  | ValueError
  | TypeError
  | IndexError
  | OverflowError
  | InvalidInput.

Inductive result (A : Type) : Type :=
  | Ok (a : A)
  | Raise (e : exn).
Arguments Ok {A} a.
Arguments Raise {A} e.

#[global] Instance exn_eq_dec : EqDecision exn.
Proof. solve_decision. Defined.

#[global] Instance result_eq_dec `{EqDecision A} : EqDecision (result A).
Proof. solve_decision. Defined.

#[global] Instance result_ret : MRet result := λ A a, Ok a.

#[global] Instance result_bind : MBind result := λ A B k m,
  match m with
  | Ok a => k a
  | Raise e => Raise e
  end.

#[global] Instance result_fmap : FMap result := λ A B f m,
  match m with
  | Ok a => Ok (f a)
  | Raise e => Raise e
  end.

(** A [for] loop that threads a state and stops at the first exception. *)
Fixpoint for_each {S A : Type} (body : S → A → result S) (s : S) (items : list A)
  : result S :=
  match items with
  | [] => Ok s
  | x :: rest => s' ← body s x; for_each body s' rest
  end.

(** [for _ in range(n)] over a state. *)
Fixpoint repeat_n {S : Type} (n : nat) (body : S → result S) (s : S) : result S :=
  match n with
  | O => Ok s
  | Datatypes.S k => s' ← body s; repeat_n k body s'
  end.

(** ** The built-ins that builder.py calls *)

Module Py.

(** [float(n)] of an int. *)
Definition of_int (n : Z) : Qc := Qc_of_Z n.

(** [len(l)], as a number. *)
Definition len {A : Type} (l : list A) : Z := Z.of_nat (length l).

(** True division [x / y]; Python raises on a zero divisor. *)
Definition div (x y : Qc) : result Qc :=
  if decide (y = Q2Qc 0) then Raise ZeroDivisionError else Ok (x / y)%Qc.

(** [sum(xs)]: starts from 0 and adds from the left. *)
Definition sum (xs : list Qc) : Qc := foldl Qcplus (Q2Qc 0) xs.

(** [abs(x)]. *)
Definition abs (x : Qc) : Qc := Qcabs.Qcabs x.

(** [max(xs)]: [ValueError] on an empty sequence; otherwise the first
    item is kept until a strictly greater one is met. *)
Definition max (xs : list Qc) : result Qc :=
  match xs with
  | [] => Raise ValueError
  | x :: rest => Ok (foldl (λ m y, if decide (m < y)%Qc then y else m) x rest)
  end.

(** [l[-1]]. *)
Definition last_item {A : Type} (l : list A) : result A :=
  match last l with
  | Some x => Ok x
  | None => Raise IndexError
  end.

(** [l.pop(i)] for the index computed by the trimming loop, which is
    [None] or a non-negative int. *)
Definition pop {A : Type} (l : list A) (i : option nat) : result (list A) :=
  match i with
  | None => Raise TypeError
  | Some i => if decide (i < length l)%nat then Ok (delete i l) else Raise IndexError
  end.

(** A float that may be [-math.inf]. *)
Inductive lower : Set :=
  | NegInf
  | Fin (q : Qc).

(** [dev > max_dev]. *)
Definition gt (dev : Qc) (max_dev : lower) : bool :=
  match max_dev with
  | NegInf => true
  | Fin m => bool_decide (m < dev)%Qc
  end.

End Py.

(** ** builder.py on exact rationals *)

(** A sweep is the item list of the benchmark dict, in insertion order,
    with each key already read by [int()]. *)
Abbreviation sweep := (list (Z * Z)) (only parsing).

(** A [(bytes, bandwidth)] tuple. *)
Abbreviation point := (Z * Qc)%type (only parsing).

Abbreviation cluster := (list point) (only parsing).

Definition CLUSTER_THRESHOLD : Qc := Q2Qc (2 # 10).

(** [[frequency_hz * (b / c) for b, c in zip(keys, cycles)]] *)
Definition rates (keys cycles : list Z) (frequency_hz : Z) : result (list Qc) :=
  mapM (λ '(b, c), q ← Py.div (Py.of_int b) (Py.of_int c);
                   Ok (Py.of_int frequency_hz * q)%Qc)
       (zip keys cycles).

(** [sum(p[1] for p in c) / len(c)] *)
Definition mean (c : cluster) : result Qc :=
  Py.div (Py.sum (snd <$> c)) (Py.of_int (Py.len c)).

(** One iteration of the clustering loop (lines 24-40). *)
Definition cluster_step (clusters : list cluster) (bandwidth_point : point)
  : result (list cluster) :=
  current_cluster ← Py.last_item clusters;
  let at_last (c : cluster) := <[pred (length clusters) := c]> clusters in
  if decide (Py.len current_cluster = 0)%Z then
    Ok (at_last (current_cluster ++ [bandwidth_point]))
  else
    cluster_avg ← mean current_cluster;
    if decide (Py.abs (bandwidth_point.2 - cluster_avg)
               < CLUSTER_THRESHOLD * cluster_avg)%Qc
    then Ok (at_last (current_cluster ++ [bandwidth_point]))
    else if decide (Py.len current_cluster < 3)%Z
         then Ok (at_last [bandwidth_point])
         else Ok (clusters ++ [[bandwidth_point]]).

(** The clustering pass (lines 23-40). *)
Definition clustering (points : list point) : result (list cluster) :=
  for_each cluster_step [[]] points.

(** [max(1, min(int(n * 0.5), n - 1))] *)
Definition points_to_remove (n : Z) : Z := (Z.max 1 (Z.min (n / 2) (n - 1)))%Z.

(** The scan for the largest deviation (lines 49-54): the state is
    [(max_dev, max_idx)]. *)
Definition argmax_step (st : Py.lower * option nat) (item : Qc * nat)
  : Py.lower * option nat :=
  let '(dev, idx) := item in
  if Py.gt dev st.1 then (Py.Fin dev, Some idx) else st.

Definition argmax (deviation : list Qc) : option nat :=
  (foldl argmax_step (Py.NegInf, None) (zip deviation (seq 0 (length deviation)))).2.

(** One removal (lines 47-55). *)
Definition trim_step (c : cluster) : result cluster :=
  average ← mean c;
  let deviation := (λ p : point, Py.abs (p.2 - average)%Qc) <$> c in
  Py.pop c (argmax deviation).

(** The trimming of one cluster (lines 45-55). *)
Definition trim (c : cluster) : result cluster :=
  repeat_n (Z.to_nat (points_to_remove (Py.len c))) trim_step c.

Definition get_bandwidth (memory_benchmark : sweep) (frequency_hz : Z)
  : result (list Qc) :=
  let bytes := fst <$> memory_benchmark in
  let cycles := snd <$> memory_benchmark in
  bandwidth ← rates bytes cycles frequency_hz;
  clusters ← clustering (zip bytes bandwidth);
  clusters ← mapM trim clusters;
  mapM mean clusters.

Definition get_peak_performance (arithmetic_benchmark : sweep) (frequency_hz : Z)
  : result Qc :=
  let arith_ops := fst <$> arithmetic_benchmark in
  let cycles := snd <$> arithmetic_benchmark in
  performance ← rates arith_ops cycles frequency_hz;
  Py.max performance.

(** Modelled from the spec: the class [CARMData] of carm.py, which is
    not among the sources.  The specification describes it as an
    immutable record of the ordered per-level bandwidths, the peak
    performance and the clock frequency; the constructor is called with
    these three values, in this order. *)
Module Carm.

Record CARMData : Type := Build {
  bandwidths : list Qc;
  peak_performance : Qc;
  frequency_hz : Z
}.

End Carm.

(** What [build_carm] can raise: the exceptions of the two extractors,
    and [KeyError] for a key that the benchmark dict does not have. *)
Inductive raised : Type :=
  | KeyError (key : string)
  | Builtin (e : exn).

Inductive outcome (A : Type) : Type :=
  | Return (a : A)
  | Fail (e : raised).
Arguments Return {A} a.
Arguments Fail {A} e.

(** [benchmark_results[key]] *)
Definition getitem (benchmark_results : gmap string (list (Z * Z))) (key : string)
  : outcome (list (Z * Z)) :=
  match benchmark_results !! key with
  | Some value => Return value
  | None => Fail (KeyError key)
  end.

(** [build_carm] without an output path and without a plot path (lines
    117-138): no figure is drawn and no file is written.  The benchmark
    dict maps a key to the item list of its sweep. *)
Definition build_carm (benchmark_results : gmap string (list (Z * Z)))
    (frequency_hz : Z) : outcome Carm.CARMData :=
  match getitem benchmark_results "memory" with
  | Fail e => Fail e
  | Return memory =>
      match get_bandwidth memory frequency_hz with
      | Raise e => Fail (Builtin e)
      | Ok level_bandwidth =>
          match getitem benchmark_results "arithmetic" with
          | Fail e => Fail e
          | Return arithmetic =>
              match get_peak_performance arithmetic frequency_hz with
              | Raise e => Fail (Builtin e)
              | Ok arithmetic_perf =>
                  Return (Carm.Build level_bandwidth arithmetic_perf frequency_hz)
              end
          end
      end
  end.

(** ** The vocabulary of the properties *)


(** What [get_bandwidth] computes from the clusters (lines 43-57). *)
Definition levels (clusters : list cluster) : result (list Qc) :=
  clusters ← mapM trim clusters;
  mapM mean clusters.





(** The sweeps of the scenarios. *)
Definition memory_scenario : sweep :=
  [(64, 10); (128, 20); (256, 1600); (512, 3200); (1024, 6400)]%Z.




(** * builder.py on the arithmetic of the runtime

    The functions of builder.py once more, over the numbers that the
    interpreter computes with.  What the code asks of the runtime is
    gathered in one interface; the functions are written over it, line
    by line, and binary64 is its instance below.  A sweep is the item
    list of the benchmark dict, in insertion order, with its keys as the
    dict has them: strings. *)

(** The operations that builder.py performs on its numbers.  The ints
    are Python ints (unbounded); [float] is the type of the floats. *)
Class Runtime : Type := {
  float : Type;
  (** [int(b)] of a key of the benchmark dict, a [str] *)
  py_int : string → result Z;
  (** [b / c] of two ints *)
  truediv : Z → Z → result float;
  (** [n * x] of an int and a float *)
  rmul : Z → float → result float;
  (** [sum(xs)] of a non-empty sequence of floats *)
  fsum : list float → float;
  (** [x / n] of a float and the positive length of a list *)
  div_len : float → nat → float;
  (** [x - y], [x * y], [abs(x)] and [x < y] of floats *)
  fsub : float → float → float;
  fmul : float → float → float;
  fabs : float → float;
  flt : float → float → bool;
  (** the literal [0.2] and [-math.inf] *)
  lit_0_2 : float;
  neg_inf : float
}.

(** What the properties use of the runtime: an int divided by zero
    raises, and [<] is a strict order. *)
Class RuntimeLaws (R : Runtime) : Prop := {
  truediv_zero (b : Z) : truediv b 0 = Raise ZeroDivisionError;
  flt_irrefl (x : float) : flt x x = false;
  flt_trans (x y z : float) : flt x y = true → flt y z = true → flt x z = true
}.

Module Builder.
Section Code.
Context {R : Runtime}.

Definition CLUSTER_THRESHOLD : float := lit_0_2.

(** [[int(b) for b in memory_benchmark.keys()]] *)
Definition keys (benchmark : list (string * Z)) : result (list Z) :=
  mapM py_int (benchmark.*1).

(** [[frequency_hz * (b / c) for b, c in zip(bytes, cycles)]] *)
Definition rates (bytes cycles : list Z) (frequency_hz : Z) : result (list float) :=
  mapM (λ '(b, c), q ← truediv b c; rmul frequency_hz q) (zip bytes cycles).

(** [sum(p[1] for p in c) / len(c)]: the sum of no item is the int 0,
    and [0 / 0] raises. *)
Definition mean (c : list (Z * float)) : result float :=
  match c with
  | [] => Raise ZeroDivisionError
  | _ :: _ => Ok (div_len (fsum (c.*2)) (length c))
  end.

(** The test of line 33:
    [abs(bandwidth_point[1] - cluster_avg) < CLUSTER_THRESHOLD * cluster_avg] *)
Definition near (rate cluster_avg : float) : bool :=
  flt (fabs (fsub rate cluster_avg)) (fmul CLUSTER_THRESHOLD cluster_avg).

(** One iteration of the clustering loop (lines 24-40). *)
Definition cluster_step (clusters : list (list (Z * float)))
    (bandwidth_point : Z * float) : result (list (list (Z * float))) :=
  current_cluster ← Py.last_item clusters;
  let at_last (c : list (Z * float)) := <[pred (length clusters) := c]> clusters in
  if decide (Py.len current_cluster = 0)%Z then
    Ok (at_last (current_cluster ++ [bandwidth_point]))
  else
    cluster_avg ← mean current_cluster;
    if near bandwidth_point.2 cluster_avg
    then Ok (at_last (current_cluster ++ [bandwidth_point]))
    else if decide (Py.len current_cluster < 3)%Z
         then Ok (at_last [bandwidth_point])
         else Ok (clusters ++ [[bandwidth_point]]).

(** The clustering pass (lines 23-40). *)
Definition clustering (points : list (Z * float)) : result (list (list (Z * float))) :=
  for_each cluster_step [[]] points.

(** The scan for the largest deviation (lines 49-54): the state is
    [(max_dev, max_idx)], and [dev > max_dev] is [max_dev < dev]. *)
Definition argmax_step (st : float * option nat) (item : float * nat)
  : float * option nat :=
  let '(dev, idx) := item in
  if flt st.1 dev then (dev, Some idx) else st.

Definition argmax (deviation : list float) : option nat :=
  (foldl argmax_step (neg_inf, None) (zip deviation (seq 0 (length deviation)))).2.

(** One removal (lines 47-55). *)
Definition trim_step (c : list (Z * float)) : result (list (Z * float)) :=
  average ← mean c;
  let deviation := (λ p : Z * float, fabs (fsub p.2 average)) <$> c in
  Py.pop c (argmax deviation).

(** The trimming of one cluster (lines 45-55). *)
Definition trim (c : list (Z * float)) : result (list (Z * float)) :=
  repeat_n (Z.to_nat (points_to_remove (Py.len c))) trim_step c.

(** What [get_bandwidth] computes from the clusters (lines 43-57). *)
Definition levels (clusters : list (list (Z * float))) : result (list float) :=
  clusters ← mapM trim clusters;
  mapM mean clusters.

(** [get_bandwidth] with [plot] false (lines 17-57 and 85). *)
Definition get_bandwidth (memory_benchmark : list (string * Z)) (frequency_hz : Z)
  : result (list float) :=
  bytes ← keys memory_benchmark;
  let cycles := memory_benchmark.*2 in
  bandwidth ← rates bytes cycles frequency_hz;
  clusters ← clustering (zip bytes bandwidth);
  levels clusters.

(** [max(xs)]: [ValueError] on an empty sequence; otherwise the first
    item is kept until an item compares greater. *)
Definition max (xs : list float) : result float :=
  match xs with
  | [] => Raise ValueError
  | x :: rest => Ok (foldl (λ m y, if flt m y then y else m) x rest)
  end.

(** [get_peak_performance] with [plot] false (lines 91-95 and 114). *)
Definition get_peak_performance (arithmetic_benchmark : list (string * Z))
    (frequency_hz : Z) : result float :=
  arith_ops ← keys arithmetic_benchmark;
  let cycles := arithmetic_benchmark.*2 in
  performance ← rates arith_ops cycles frequency_hz;
  max performance.

(** The class [CARMData] of carm.py, which is not among the sources,
    modelled from the spec: a record of the ordered per-level
    bandwidths, the peak performance and the clock frequency, built
    from these three values in this order. *)
Record CARMData : Type := Build_CARMData {
  bandwidths : list float;
  peak_performance : float;
  frequency_hz : Z
}.

(** [benchmark_results[key]] *)
Definition getitem (benchmark_results : gmap string (list (string * Z)))
    (key : string) : outcome (list (string * Z)) :=
  match benchmark_results !! key with
  | Some value => Return value
  | None => Fail (KeyError key)
  end.

(** [build_carm] without an output path and without a plot path (lines
    117-138): no figure is drawn and no file is written. *)
Definition build_carm (benchmark_results : gmap string (list (string * Z)))
    (frequency_hz : Z) : outcome CARMData :=
  match getitem benchmark_results "memory" with
  | Fail e => Fail e
  | Return memory =>
      match get_bandwidth memory frequency_hz with
      | Raise e => Fail (Builtin e)
      | Ok level_bandwidth =>
          match getitem benchmark_results "arithmetic" with
          | Fail e => Fail e
          | Return arithmetic =>
              match get_peak_performance arithmetic frequency_hz with
              | Raise e => Fail (Builtin e)
              | Ok arithmetic_perf =>
                  Return (Build_CARMData level_bandwidth arithmetic_perf frequency_hz)
              end
          end
      end
  end.

End Code.
End Builder.

(** ** The runtime of CPython: binary64

    Floats are IEEE 754 binary64 numbers with round-to-nearest-even, in
    the representation and with the operations of [SpecFloat]; an
    operation of floats never raises, an operation that starts from an
    int raises what CPython raises. *)
Module B64.

Definition prec : Z := 53.
Definition emax : Z := 1024.

Definition is_finite (x : spec_float) : bool :=
  match x with
  | S754_zero _ | S754_finite _ _ _ => true
  | S754_infinity _ | S754_nan => false
  end.

(** The float nearest to the int [n]. *)
Definition of_Z (n : Z) : spec_float := binary_normalize prec emax n 0 false.

(** [float(n)] of an int: the nearest float, [OverflowError] beyond the
    range. *)
Definition float_of_int (n : Z) : result spec_float :=
  if is_finite (of_Z n) then Ok (of_Z n) else Raise OverflowError.

(** The int [n] as the numerator or denominator of a quotient: [n]
    itself, not rounded. *)
Definition operand (n : Z) : spec_float :=
  match n with
  | Z0 => S754_zero false
  | Zpos p => S754_finite false p 0
  | Zneg p => S754_finite true p 0
  end.

(** [b / c] of two ints: the quotient rounded once; a zero divisor and
    a quotient beyond the range raise; [0 / c] has the sign of [c]. *)
Definition truediv (b c : Z) : result spec_float :=
  if decide (c = 0)%Z then Raise ZeroDivisionError
  else if decide (b = 0)%Z then Ok (S754_zero (c <? 0)%Z)
  else
    let q := SFdiv prec emax (operand b) (operand c) in
    if is_finite q then Ok q else Raise OverflowError.

(** [n * x]: the int is converted, the product is a product of
    floats. *)
Definition rmul (n : Z) (x : spec_float) : result spec_float :=
  y ← float_of_int n; Ok (SFmul prec emax y x).

(** [sum(xs)]: from the int 0, added from the left, each sum rounded
    (CPython up to 3.11; from 3.12 on [sum] carries a compensation term
    for floats, which can change the last bit of a sum). *)
Definition sum (xs : list spec_float) : spec_float :=
  foldl (SFadd prec emax) (S754_zero false) xs.

(** [x / n] for the length [n] of a list: a length is below 2^53,
    where [float(n)] is [n] itself. *)
Definition div_len (x : spec_float) (n : nat) : spec_float :=
  SFdiv prec emax x (operand (Z.of_nat n)).

(** The literal [0.2]: 0x1.999999999999ap-3. *)
Definition lit_0_2 : spec_float := S754_finite false 7205759403792794 (-55).

(** A white-space character of a numeric string. *)
Definition is_space (a : Ascii.ascii) : bool :=
  let n := Ascii.N_of_ascii a in
  ((9 <=? n) && (n <=? 13) || (n =? 32))%N.

Definition digit (a : Ascii.ascii) : option Z :=
  let n := Ascii.N_of_ascii a in
  if ((48 <=? n) && (n <=? 57))%N then Some (Z.of_N n - 48)%Z else None.

Fixpoint lstrip (l : list Ascii.ascii) : list Ascii.ascii :=
  match l with
  | a :: rest => if is_space a then lstrip rest else l
  | [] => []
  end.

(** The number of digits that [int()] accepts (the default limit of
    CPython 3.11). *)
Definition max_str_digits : N := 4300.

(** Decimal digits, with single underscores (code 95) between
    digits: an underscore is read after a digit only, and the string
    ends after a digit.  [n] counts the digits. *)
Fixpoint digits (acc : Z) (n : N) (after_digit : bool) (l : list Ascii.ascii)
  : option Z :=
  match l with
  | [] => if after_digit && (n <=? max_str_digits)%N then Some acc else None
  | a :: rest =>
      match digit a with
      | Some d => digits (10 * acc + d) (N.succ n) true rest
      | None =>
          if after_digit && (Ascii.N_of_ascii a =? 95)%N
          then digits acc n false rest
          else None
      end
  end.

(** [int(s)] of a string of ASCII characters: white space around an
    optional sign (code 45 or 43) and decimal digits; anything else is
    a [ValueError]. *)
Definition int (s : string) : result Z :=
  let l := reverse (lstrip (reverse (lstrip (String.list_ascii_of_string s)))) in
  let signed :=
    match l with
    | a :: rest =>
        if (Ascii.N_of_ascii a =? 45)%N then Z.opp <$> digits 0 0 false rest
        else if (Ascii.N_of_ascii a =? 43)%N then digits 0 0 false rest
        else digits 0 0 false l
    | [] => None
    end in
  match signed with
  | Some n => Ok n
  | None => Raise ValueError
  end.

#[global] Instance spec_float_eq_dec : EqDecision spec_float.
Proof. solve_decision. Defined.

#[export] Instance runtime : Runtime :=
  Build_Runtime spec_float int truediv rmul sum div_len
    (SFsub prec emax) (SFmul prec emax) SFabs SFltb lit_0_2 (S754_infinity true).

End B64.

(** ** The vocabulary of the properties on the runtime *)

Section Vocabulary.
Context {R : Runtime}.

(** The mean of a non-empty list of rates, as [Builder.mean] computes
    it. *)
Definition avg (rs : list float) : float := div_len (fsum rs) (length rs).




(** The rates of the points of a cluster. *)
Definition rates_of (c : list (Z * float)) : list float := c.*2.

(** The level of a cluster with the rates [rs]: the mean of the rates
    kept, a sublist of [rs] without the smaller half. *)
Definition level_of (rs : list float) (level : float) : Prop :=
  ∃ kept : list float,
    kept `sublist_of` rs ∧ length kept = (length rs - length rs / 2)%nat
    ∧ kept ≠ [] ∧ level = avg kept.

(** The item [(key, cycles)] of a sweep has the rate [r]: the key is
    read, the quotient and the product are computed. *)
Definition computes (frequency_hz : Z) (item : string * Z) (r : float) : Prop :=
  ∃ b q, py_int item.1 = Ok b ∧ truediv b item.2 = Ok q ∧ rmul frequency_hz q = Ok r.

End Vocabulary.

(** The sweeps of the scenarios, as the benchmark dict has them. *)
Definition memory_benchmark : list (string * Z) :=
  [("64", 10); ("128", 20); ("256", 1600); ("512", 3200); ("1024", 6400)]%Z.

Definition arithmetic_benchmark : list (string * Z) :=
  [("100", 50); ("200", 90); ("400", 100)]%Z.


(** Two points at 1 byte per cycle, then one at 6/5. *)
Definition short_then_far : list (string * Z) := [("5", 5); ("10", 10); ("6", 5)]%Z.

(** Three points whose rates at 1e300 Hz are finite and whose sum is
    not. *)
Definition huge_rates : list (string * Z) :=
  [("85000000", 1); ("90000000", 1); ("95000000", 1)]%Z.

(** Binary64 numbers: [m * 2^e]. *)
Definition b64 (m : positive) (e : Z) : spec_float := S754_finite false m e.

(** The floats of binary64, as the floats of the runtime. *)
Abbreviation float64 := (@float B64.runtime) (only parsing).

(** A cluster of the clustering pass on binary64: one point or none, or
    finite rates. *)
Definition settled (c : list (Z * float64)) : Prop :=
  (length c ≤ 1)%nat ∨ Forall (λ p, B64.is_finite p.2 = true) c.

(** Closed goals are decided by evaluation. *)
Ltac by_eval := apply (bool_decide_unpack _); vm_compute; exact I.

(** * Arithmetic of rates *)

(** Equality of rates is equality in [Q]. *)
Lemma Qc_eq_Qeq (x y : Qc) : x = y ↔ (x == y)%Q.
Proof. split; [intros ->; reflexivity | apply Qc_is_canon]. Qed.

Lemma len_cons {A} (x : A) (l : list A) : Py.len (x :: l) = (Py.len l + 1)%Z.
Proof. unfold Py.len. cbn [length]. lia. Qed.

Lemma len_nonneg {A} (l : list A) : (0 ≤ Py.len l)%Z.
Proof. unfold Py.len. lia. Qed.

Lemma len_pos {A} (l : list A) : l ≠ [] → (0 < Py.len l)%Z.
Proof. destruct l; [done|]. rewrite len_cons. pose proof (len_nonneg l). lia. Qed.

Lemma of_int_eq_0 (n : Z) : Py.of_int n = Q2Qc 0 ↔ n = 0%Z.
Proof.
  split; [|intros ->; by apply Qc_is_canon].
  intros H. apply Qc_eq_Qeq in H. change (inject_Z n == inject_Z 0)%Q in H.
  by apply inject_Z_injective.
Qed.

Lemma div_Ok (x y : Qc) : y ≠ Q2Qc 0 → Py.div x y = Ok (x / y)%Qc.
Proof. intros Hy. unfold Py.div. by rewrite decide_False. Qed.

Lemma div_zero (x : Qc) : Py.div x (Py.of_int 0) = Raise ZeroDivisionError.
Proof. unfold Py.div. rewrite decide_True; [done | by apply of_int_eq_0]. Qed.

Lemma mean_Ok (c : cluster) :
  c ≠ [] → mean c = Ok (Py.sum (snd <$> c) / Py.of_int (Py.len c))%Qc.
Proof.
  intros Hc. apply div_Ok. rewrite of_int_eq_0.
  pose proof (len_pos c Hc). lia.
Qed.

(** * The error monad on lists *)

Lemma bind_Ok_inv {A B} (m : result A) (k : A → result B) (b : B) :
  m ≫= k = Ok b → ∃ a, m = Ok a ∧ k a = Ok b.
Proof. destruct m as [a|e]; [eauto | discriminate]. Qed.

Lemma mapM_Ok_inv {A B} (f : A → result B) (l : list A) (k : list B) :
  mapM f l = Ok k → Forall2 (λ x y, f x = Ok y) l k.
Proof.
  revert k. induction l as [|x l IH]; intros k; cbn.
  - intros [= <-]. constructor.
  - intros H. apply bind_Ok_inv in H as (y & Hy & H).
    apply bind_Ok_inv in H as (k' & Hk' & [= <-]).
    constructor; auto.
Qed.

Lemma mapM_singleton {A B} (f : A → result B) (x : A) :
  mapM f [x] = f x ≫= λ y, Ok [y].
Proof. reflexivity. Qed.

Lemma mapM_Ok {A B} (f : A → result B) (l : list A) (k : list B) :
  Forall2 (λ x y, f x = Ok y) l k → mapM f l = Ok k.
Proof. induction 1 as [|x y l k Hxy _ IH]; cbn; [done|]. by rewrite Hxy, IH. Qed.

Lemma for_each_app {S A} (body : S → A → result S) (s : S) (l1 l2 : list A) :
  for_each body s (l1 ++ l2) = for_each body s l1 ≫= λ s', for_each body s' l2.
Proof.
  revert s. induction l1 as [|x l1 IH]; intros s; cbn; [done|].
  destruct (body s x) as [s'|e]; cbn; [apply IH | done].
Qed.

(** * The trimming pass *)

Lemma points_to_remove_ge_2 (n : Z) :
  (2 ≤ n)%Z → points_to_remove n = (n / 2)%Z ∧ (1 ≤ n / 2 ≤ n - 1)%Z.
Proof.
  intros Hn. unfold points_to_remove.
  assert (1 ≤ n / 2)%Z by (apply Z.div_le_lower_bound; lia).
  assert (n / 2 ≤ n - 1)%Z by (apply Z.div_le_upper_bound; lia).
  lia.
Qed.

(** Once an index is held, the scan keeps holding one, and it is the
    held index or one of the scanned ones. *)
Lemma argmax_scan (items : list (Qc * nat)) (d : Qc) (i : nat) :
  ∃ d' j, foldl argmax_step (Py.Fin d, Some i) items = (Py.Fin d', Some j)
          ∧ (j = i ∨ j ∈ items.*2).
Proof.
  revert d i. induction items as [|[dev idx] items IH]; intros d i; cbn [foldl].
  - eauto.
  - unfold argmax_step at 2. cbn [fst Py.gt]. case_bool_decide.
    + destruct (IH dev idx) as (d' & j & -> & Hj). exists d', j. split; [done|].
      right. cbn. destruct Hj as [->|Hj]; [left | by right].
    + destruct (IH d i) as (d' & j & -> & Hj). exists d', j. split; [done|].
      destruct Hj as [->|Hj]; [by left | right; by right].
Qed.

(** On a non-empty list the scan returns an index of the list. *)
Lemma argmax_Some (deviation : list Qc) :
  deviation ≠ [] → ∃ i, argmax deviation = Some i ∧ (i < length deviation)%nat.
Proof.
  destruct deviation as [|d ds]; [done|]. intros _.
  unfold argmax. cbn [length seq zip zip_with foldl].
  unfold argmax_step at 2. cbn [fst Py.gt].
  destruct (argmax_scan (zip ds (seq 1 (length ds))) d 0%nat) as (d' & j & -> & Hj).
  exists j. split; [done|]. destruct Hj as [->|Hj]; [lia|].
  apply list_elem_of_fmap in Hj as ([x k] & -> & Hin).
  apply elem_of_zip_r, elem_of_seq in Hin. cbn. lia.
Qed.

(** A removal from a non-empty cluster succeeds and deletes one point. *)
Lemma trim_step_Ok (c : cluster) :
  c ≠ [] → ∃ i, (i < length c)%nat ∧ trim_step c = Ok (delete i c).
Proof.
  intros Hc. unfold trim_step. rewrite (mean_Ok c Hc). cbn [mbind result_bind].
  set (deviation := _ <$> c).
  destruct (argmax_Some deviation) as (i & -> & Hi).
  - subst deviation. by destruct c.
  - subst deviation. rewrite length_fmap in Hi. exists i. split; [done|].
    unfold Py.pop. by rewrite decide_True.
Qed.

(** [k] removals from a cluster of at least [k] points succeed and leave
    a sublist with [k] points fewer. *)
Lemma repeat_trim_step (k : nat) (c : cluster) :
  (k ≤ length c)%nat →
  ∃ c', repeat_n k trim_step c = Ok c' ∧ length c' = (length c - k)%nat
        ∧ c' `sublist_of` c.
Proof.
  revert c. induction k as [|k IH]; intros c Hk; cbn [repeat_n].
  - exists c. split; [done|]. split; [lia | done].
  - destruct (trim_step_Ok c) as (i & Hi & ->); [destruct c; [cbn in Hk; lia | done]|].
    cbn [mbind result_bind].
    assert (length (delete i c) = (length c - 1)%nat) as Hlen.
    { apply length_delete. by apply lookup_lt_is_Some. }
    destruct (IH (delete i c)) as (c' & -> & Hlen' & Hsub); [lia|].
    exists c'. split; [done|]. split; [lia|].
    etrans; [exact Hsub | apply sublist_delete].
Qed.

(** A cluster of at least two points keeps the larger half of them. *)
Lemma trim_ge_2 (c : cluster) :
  (2 ≤ length c)%nat →
  ∃ c', trim c = Ok c' ∧ c' ≠ [] ∧ c' `sublist_of` c
        ∧ length c' = (length c - length c / 2)%nat.
Proof.
  intros Hc. unfold trim.
  destruct (points_to_remove_ge_2 (Py.len c)) as [-> Hn]; [unfold Py.len; lia|].
  unfold Py.len in *.
  replace (Z.to_nat (Z.of_nat (length c) / 2)) with (length c / 2)%nat
    by (rewrite <- (Nat2Z.inj_div _ 2), Nat2Z.id; done).
  assert (length c / 2 < length c)%nat as Hhalf by (apply Nat.div_lt; lia).
  destruct (repeat_trim_step (length c / 2) c) as (c' & Hc' & Hlen & Hsub); [lia|].
  exists c'. repeat split; try done.
  intros ->. change (@length point []) with 0%nat in Hlen. lia.
Qed.


(** A single point is removed. *)
Lemma trim_singleton (p : point) : trim [p] = Ok [].
Proof.
  unfold trim. change (Z.to_nat (points_to_remove (Py.len [p]))) with 1%nat.
  cbn [repeat_n].
  destruct (trim_step_Ok [p]) as (i & Hi & ->); [done|].
  cbn in Hi. by replace i with 0%nat by lia.
Qed.

(** * The clustering pass *)

(** [clusters[-1] = c] on a list that ends with a cluster. *)
Lemma insert_last {A} (l : list A) (x y : A) :
  <[pred (length (l ++ [x])) := y]> (l ++ [x]) = l ++ [y].
Proof.
  rewrite length_app. cbn [length].
  replace (pred (length l + 1)) with (length l + 0)%nat by lia.
  by rewrite insert_app_r.
Qed.

(** A step reads and writes the last cluster only. *)
Lemma cluster_step_snoc (closed : list cluster) (cur : cluster) (p : point) :
  cluster_step (closed ++ [cur]) p = (closed ++.) <$> cluster_step [cur] p.
Proof.
  unfold cluster_step, Py.last_item. rewrite last_snoc. cbn [list.last].
  cbn [mbind result_bind]. rewrite !insert_last.
  change (<[pred (length [cur]) := ?c]> [cur]) with [c].
  case_decide; [done|].
  destruct (mean cur) as [avg|e]; cbn [mbind result_bind fmap result_fmap]; [|done].
  repeat case_decide; try done.
  by rewrite <- (assoc_L (++)).
Qed.

(** A step never leaves the cluster list empty. *)
Lemma cluster_step_nonempty (clusters clusters' : list cluster) (p : point) :
  cluster_step clusters p = Ok clusters' → clusters' ≠ [].
Proof.
  destruct clusters as [|c0 cs _] using rev_ind; [done|].
  rewrite cluster_step_snoc. unfold cluster_step.
  cbn [Py.last_item list.last mbind result_bind].
  change (<[pred (length [c0]) := ?c]> [c0]) with [c].
  case_decide.
  { cbn. intros [= <-]. by destruct cs. }
  destruct (mean c0) as [avg|e]; cbn [mbind result_bind]; [|done].
  repeat case_decide; cbn; intros [= <-]; by destruct cs.
Qed.



(** * The rate computation *)

Lemma rates_sweep (s : sweep) (f : Z) :
  rates (s.*1) (s.*2) f
  = mapM (λ '(b, c), q ← Py.div (Py.of_int b) (Py.of_int c);
                     Ok (Py.of_int f * q)%Qc) s.
Proof. unfold rates. by rewrite zip_fst_snd. Qed.



(** The rate computation raises nothing but [ZeroDivisionError]. *)
Lemma rates_Raise (s : sweep) (f : Z) (e : exn) :
  rates (s.*1) (s.*2) f = Raise e → e = ZeroDivisionError ∧ 0%Z ∈ s.*2.
Proof.
  rewrite rates_sweep.
  induction s as [|[b c] s IH]; cbn [fmap list_fmap mapM]; [done|].
  destruct (decide (c = 0%Z)) as [->|Hc].
  - rewrite div_zero. intros [= <-]. split; [done|]. left.
  - rewrite div_Ok by by rewrite of_int_eq_0. cbn [mbind result_bind].
    destruct (mapM _ s) as [rs|e'] eqn:Hrs;
      cbn [mbind result_bind mret result_ret]; [done|].
    intros [= ->]. destruct (IH eq_refl) as [-> Hin]. split; [done|]. by right.
Qed.


(** * The maximum *)



(** * The memory scenario *)

(** C1, as stated, fails: at 1e9 Hz the scenario sweep does not yield
    the two bandwidth values [6.4e9, 1.6e8]. *)
Lemma memory_scenario_not_two_levels :
  get_bandwidth memory_scenario 1000000000
  ≠ Ok [Py.of_int 6400000000; Py.of_int 160000000].
Proof. by_eval. Qed.

(** C1, amended: at 1e9 Hz the scenario sweep has the rates 6.4e9, 6.4e9,
    1.6e8, 1.6e8, 1.6e8; the clustering pass drops the two-point run
    {64, 128} when the point 256 deviates from it and ends with the one
    cluster {256, 512, 1024}; [get_bandwidth] returns the one value
    [1.6e8]. *)
Theorem memory_scenario_one_level :
  let keys := memory_scenario.*1 in
  let fast := Py.of_int 6400000000 in
  let slow := Py.of_int 160000000 in
  rates keys (memory_scenario.*2) 1000000000 = Ok [fast; fast; slow; slow; slow]
  ∧ clustering (zip keys [fast; fast]) = Ok [[(64%Z, fast); (128%Z, fast)]]
  ∧ clustering (zip keys [fast; fast; slow; slow; slow])
    = Ok [[(256%Z, slow); (512%Z, slow); (1024%Z, slow)]]
  ∧ get_bandwidth memory_scenario 1000000000 = Ok [slow].
Proof. repeat split; by_eval. Qed.

(** * Errors *)

Lemma bind_Raise_inv {A B} (m : result A) (k : A → result B) (e : exn) :
  m ≫= k = Raise e → m = Raise e ∨ ∃ a, m = Ok a ∧ k a = Raise e.
Proof. destruct m as [a|e']; cbn; [eauto | intros [= ->]; by left]. Qed.

Lemma mapM_Raise_inv {A B} (f : A → result B) (l : list A) (e : exn) :
  mapM f l = Raise e → ∃ x, x ∈ l ∧ f x = Raise e.
Proof.
  induction l as [|x l IH]; cbn; [done|].
  intros [Hx | (y & Hy & [Hl | (k & _ & [=])]%bind_Raise_inv)]%bind_Raise_inv.
  - exists x. split; [left | done].
  - destruct (IH Hl) as (x' & Hin & Hx'). exists x'. split; [by right | done].
Qed.

Lemma repeat_n_Raise_inv {S} (n : nat) (body : S → result S) (s : S) (e : exn) :
  repeat_n n body s = Raise e → ∃ s', body s' = Raise e.
Proof.
  revert s. induction n as [|n IH]; intros s; cbn; [done|].
  intros [Hs | (s' & _ & H)]%bind_Raise_inv; eauto.
Qed.

Lemma div_Raise_inv (x y : Qc) (e : exn) :
  Py.div x y = Raise e → e = ZeroDivisionError ∧ y = Q2Qc 0.
Proof. unfold Py.div. case_decide; [by intros [= <-] | done]. Qed.

Lemma mean_Raise_inv (c : cluster) (e : exn) :
  mean c = Raise e → e = ZeroDivisionError ∧ c = [].
Proof.
  intros [-> H]%div_Raise_inv. split; [done|].
  apply of_int_eq_0 in H. destruct c; [done|].
  rewrite len_cons in H. pose proof (len_nonneg c). lia.
Qed.

Lemma trim_Raise_inv (c : cluster) (e : exn) :
  trim c = Raise e → e = ZeroDivisionError.
Proof.
  intros [c' H]%repeat_n_Raise_inv. destruct c' as [|p c'].
  - by injection H as <-.
  - destruct (trim_step_Ok (p :: c')) as (i & _ & Hi); [done|]. congruence.
Qed.

(** The clustering pass raises nothing: the cluster list is never empty
    and a mean is taken of a non-empty cluster only. *)
Lemma cluster_step_total (clusters : list cluster) (p : point) :
  clusters ≠ [] → ∃ clusters', cluster_step clusters p = Ok clusters'.
Proof.
  destruct clusters as [|cur closed _] using rev_ind; [done|]. intros _.
  rewrite cluster_step_snoc.
  enough (∃ cs, cluster_step [cur] p = Ok cs) as [cs ->] by (cbn; eauto).
  unfold cluster_step. cbn [Py.last_item list.last mbind result_bind].
  case_decide as H0; [eauto|].
  rewrite mean_Ok by (intros ->; by apply H0). cbn [mbind result_bind].
  repeat case_decide; eauto.
Qed.

Lemma for_each_cluster_step_total (clusters : list cluster) (pts : list point) :
  clusters ≠ [] → ∃ clusters', for_each cluster_step clusters pts = Ok clusters'.
Proof.
  revert clusters. induction pts as [|p pts IH]; intros clusters Hne; cbn [for_each].
  - eauto.
  - destruct (cluster_step_total clusters p Hne) as (cs & Hcs). rewrite Hcs.
    cbn [mbind result_bind]. apply IH. by eapply cluster_step_nonempty.
Qed.

Lemma clustering_total (pts : list point) : ∃ clusters, clustering pts = Ok clusters.
Proof. by apply for_each_cluster_step_total. Qed.

(** Whatever the input, the only exception [get_bandwidth] raises is
    [ZeroDivisionError] ... *)
Lemma get_bandwidth_Raise (s : sweep) (f : Z) (e : exn) :
  get_bandwidth s f = Raise e → e = ZeroDivisionError.
Proof.
  unfold get_bandwidth.
  intros [H | (bandwidth & _ & H)]%bind_Raise_inv; [by apply rates_Raise in H as [-> _]|].
  apply bind_Raise_inv in H as [H | (clusters & _ & H)].
  { destruct (clustering_total (zip (s.*1) bandwidth)) as [cs Hcs]. congruence. }
  apply bind_Raise_inv in H as [H | (trimmed & _ & H)].
  - apply mapM_Raise_inv in H as (c & _ & H). by eapply trim_Raise_inv.
  - apply mapM_Raise_inv in H as (c & _ & H). by apply mean_Raise_inv in H as [-> _].
Qed.

(** ... and [get_peak_performance] raises [ZeroDivisionError] or, on an
    empty sweep, [ValueError]. *)
Lemma get_peak_performance_Raise (s : sweep) (f : Z) (e : exn) :
  get_peak_performance s f = Raise e → e = ZeroDivisionError ∨ e = ValueError.
Proof.
  unfold get_peak_performance.
  intros [H | (perf & _ & H)]%bind_Raise_inv;
    [left; by apply rates_Raise in H as [-> _]|].
  right. destruct perf; [by injection H as <- | done].
Qed.

(** C8, as stated, fails: on an empty sweep neither extractor raises
    [InvalidInput]. *)
Lemma empty_sweep_not_InvalidInput :
  get_bandwidth [] 1000000000 ≠ Raise InvalidInput
  ∧ get_peak_performance [] 1000000000 ≠ Raise InvalidInput.
Proof. split; by_eval. Qed.

(** C8, amended: on an empty sweep, whatever the frequency,
    [get_bandwidth] raises [ZeroDivisionError] (the trimming pass takes
    the mean of the empty initial cluster) and [get_peak_performance]
    raises [ValueError] ([max] of an empty list); neither returns a value,
    and no input at all makes either raise [InvalidInput]. *)
Theorem empty_sweep_raises :
  (∀ f : Z, get_bandwidth [] f = Raise ZeroDivisionError
            ∧ get_peak_performance [] f = Raise ValueError)
  ∧ (∀ (s : sweep) (f : Z), get_bandwidth s f ≠ Raise InvalidInput
                             ∧ get_peak_performance s f ≠ Raise InvalidInput).
Proof.
  split; [done|]. intros s f. split.
  - by intros ?%get_bandwidth_Raise.
  - by intros [?|?]%get_peak_performance_Raise.
Qed.

(** C9, as stated, fails: a negative cycle count is not rejected.  Both
    extractors compute a rate from it and return a value. *)
Lemma negative_cycles_accepted :
  get_peak_performance [(100, -50)]%Z 1000000000 = Ok (Py.of_int (-2000000000))
  ∧ get_bandwidth [(32, -5); (64, 10); (128, 20); (256, 40)]%Z 1000000000
    = Ok [Py.of_int 6400000000].
Proof. split; by_eval. Qed.

(** * One level *)


(** * The levels of closed clusters *)


Lemma mapM_app_Ok {A B} (f : A → result B) (l1 l2 : list A) (k1 : list B) :
  mapM f l1 = Ok k1 → mapM f (l1 ++ l2) = (k1 ++.) <$> mapM f l2.
Proof.
  revert k1. induction l1 as [|x l1 IH]; intros k1; cbn.
  - intros [= <-]. by destruct (mapM f l2).
  - intros (y & -> & (k & Hk & [= <-])%bind_Ok_inv)%bind_Ok_inv.
    cbn. rewrite (IH k Hk). by destruct (mapM f l2).
Qed.

(** What one step can turn the last cluster into. *)
Lemma cluster_step_cases (cur : cluster) (p : point) (clusters : list cluster) :
  cluster_step [cur] p = Ok clusters →
  clusters = [cur ++ [p]] ∨ clusters = [[p]]
  ∨ (clusters = [cur; [p]] ∧ (3 ≤ length cur)%nat).
Proof.
  unfold cluster_step. cbn [Py.last_item list.last mbind result_bind].
  change (<[pred (length [cur]) := ?c]> [cur]) with [c].
  case_decide; [intros [= <-]; by left|].
  destruct (mean cur) as [avg|e]; cbn [mbind result_bind]; [|done].
  repeat case_decide; intros [= <-]; [by left | right; by left | right; right].
  split; [done|]. unfold Py.len in *. lia.
Qed.

(** Every cluster but the last has at least 3 points. *)
Lemma for_each_cluster_step_closed (pts : list point) :
  ∀ (closed : list cluster) (cur : cluster) (closed' : list cluster) (cur' : cluster),
    Forall (λ c, 3 ≤ length c)%nat closed →
    for_each cluster_step (closed ++ [cur]) pts = Ok (closed' ++ [cur']) →
    Forall (λ c, 3 ≤ length c)%nat closed'.
Proof.
  induction pts as [|p pts IH]; intros closed cur closed' cur' Hclosed; cbn [for_each].
  - intros [= [-> _]%app_inj_tail]. done.
  - rewrite cluster_step_snoc.
    destruct (cluster_step [cur] p) as [cs|e] eqn:Hstep; cbn; [|done].
    apply cluster_step_cases in Hstep as [-> | [-> | [-> Hlen]]].
    + by apply IH.
    + by apply IH.
    + change (closed ++ [cur; [p]]) with (closed ++ [cur] ++ [[p]]).
      rewrite (assoc_L (++)). apply IH.
      apply Forall_app. split; [done|]. by apply Forall_singleton.
Qed.

Lemma clustering_closed (pts : list point) (closed : list cluster) (cur : cluster) :
  clustering pts = Ok (closed ++ [cur]) → Forall (λ c, 3 ≤ length c)%nat closed.
Proof. by apply (for_each_cluster_step_closed pts [] []). Qed.

(** Clusters of at least two points all have a level. *)
Lemma levels_closed (closed : list cluster) :
  Forall (λ c, 2 ≤ length c)%nat closed →
  ∃ trimmed closed_levels,
    mapM trim closed = Ok trimmed ∧ mapM mean trimmed = Ok closed_levels
    ∧ length closed_levels = length closed.
Proof.
  induction 1 as [|c closed Hc _ (trimmed & lv & Htrim & Hmean & Hlen)].
  - by exists [], [].
  - destruct (trim_ge_2 c Hc) as (c' & Hc' & Hne & _).
    exists (c' :: trimmed), ((Py.sum (c'.*2) / Py.of_int (Py.len c'))%Qc :: lv).
    cbn. rewrite Hc', Htrim. cbn. rewrite (mean_Ok c' Hne), Hmean. cbn.
    by rewrite Hlen.
Qed.

(** * One-point clusters *)

(** A sweep whose last cluster has one point makes [get_bandwidth]
    raise: the point is removed and the mean of no points is taken. *)
Lemma one_point_last_cluster_raises
    (s : sweep) (f : Z) (bandwidth : list Qc) (closed : list cluster) (p : point) :
  rates (s.*1) (s.*2) f = Ok bandwidth →
  clustering (zip (s.*1) bandwidth) = Ok (closed ++ [[p]]) →
  get_bandwidth s f = Raise ZeroDivisionError.
Proof.
  intros Hrates Hclusters. unfold get_bandwidth. cbv zeta.
  rewrite Hrates. cbn [mbind result_bind]. rewrite Hclusters. cbn [mbind result_bind].
  destruct (levels_closed closed) as (trimmed & lv & Htrim & Hlv & _).
  { eapply Forall_impl; [by eapply clustering_closed|].
    intros c Hc. cbn beta in Hc |- *. lia. }
  rewrite (mapM_app_Ok trim closed [[p]] trimmed Htrim), mapM_singleton, trim_singleton.
  cbn [mbind result_bind fmap result_fmap].
  by rewrite (mapM_app_Ok mean trimmed [[]] lv Hlv).
Qed.

(** C5: the code does the opposite of the claim.  The one point of a
    one-point cluster is removed ([points_to_remove] is 1, not 0), and
    the mean of the emptied cluster then divides by zero: on the sweep
    {"64": 10} at 1e9 Hz, and on the sweep {"64": 10, "128": 20,
    "256": 40, "512": 3200} whose last point stands alone,
    [get_bandwidth] raises [ZeroDivisionError]. *)
Theorem single_point_cluster_is_emptied :
  points_to_remove 1 = 1%Z
  ∧ (∀ p : point, trim [p] = Ok [])
  ∧ mean [] = Raise ZeroDivisionError
  ∧ get_bandwidth [(64, 10)]%Z 1000000000 = Raise ZeroDivisionError
  ∧ get_bandwidth [(64, 10); (128, 20); (256, 40); (512, 3200)]%Z 1000000000
    = Raise ZeroDivisionError.
Proof.
  split; [done|]. split; [apply trim_singleton|]. split; [done|]. split; [by_eval|].
  apply (one_point_last_cluster_raises _ _
           [Py.of_int 6400000000; Py.of_int 6400000000; Py.of_int 6400000000;
            Py.of_int 160000000]
           [[(64%Z, Py.of_int 6400000000); (128%Z, Py.of_int 6400000000);
             (256%Z, Py.of_int 6400000000)]]
           (512%Z, Py.of_int 160000000)); by_eval.
Qed.

(** * The byte sizes *)














(** * When [get_bandwidth] returns *)


(** * The clusters as runs of the sweep *)










(** * Every sweep of [get_peak_performance] *)



(** * The model assembler *)




(** * A longer sweep *)




(** * The functions on the runtime: the means *)

Section OnRuntime.
Context {R : Runtime}.
Implicit Types (p : Z * float) (c cur kept : list (Z * float)).
Implicit Types (clusters closed : list (list (Z * float))).

Lemma mean_nonempty c : c ≠ [] → Builder.mean c = Ok (avg (c.*2)).
Proof. destruct c; [done|]. intros _. unfold avg. by rewrite length_fmap. Qed.

Lemma mean_inv c a : Builder.mean c = Ok a → c ≠ [] ∧ a = avg (c.*2).
Proof. destruct c; [done|]. rewrite mean_nonempty by done. by intros [= <-]. Qed.

Lemma mean_raise c e : Builder.mean c = Raise e → c = [] ∧ e = ZeroDivisionError.
Proof. destruct c; [by intros [= <-] | done]. Qed.

(** * The functions on the runtime: clustering *)

(** A step reads and writes the last cluster only. *)
Lemma step_snoc closed cur p :
  Builder.cluster_step (closed ++ [cur]) p
  = (closed ++.) <$> Builder.cluster_step [cur] p.
Proof.
  unfold Builder.cluster_step, Py.last_item. rewrite last_snoc. cbn [list.last].
  cbn [mbind result_bind]. rewrite !insert_last.
  change (<[pred (length [cur]) := ?c]> [cur]) with [c].
  case_decide; [done|].
  destruct (Builder.mean cur) as [a|e]; cbn [mbind result_bind fmap result_fmap]; [|done].
  destruct (Builder.near p.2 a); [done|].
  case_decide; [done|]. by rewrite <- (assoc_L (++)).
Qed.

Lemma step_first p : Builder.cluster_step [[]] p = Ok [[p]].
Proof. reflexivity. Qed.

Lemma len_zero_iff {A} (l : list A) : Py.len l = 0%Z ↔ l = [].
Proof. unfold Py.len. destruct l; cbn; [done|]. split; [lia | done]. Qed.

Lemma step_join cur p :
  cur ≠ [] → Builder.near p.2 (avg (cur.*2)) = true →
  Builder.cluster_step [cur] p = Ok [cur ++ [p]].
Proof.
  intros Hne Hnear. unfold Builder.cluster_step.
  cbn [Py.last_item list.last mbind result_bind].
  rewrite decide_False by by rewrite len_zero_iff.
  rewrite (mean_nonempty cur Hne). cbn [mbind result_bind]. by rewrite Hnear.
Qed.

Lemma step_restart cur p :
  cur ≠ [] → Builder.near p.2 (avg (cur.*2)) = false → (length cur < 3)%nat →
  Builder.cluster_step [cur] p = Ok [[p]].
Proof.
  intros Hne Hfar Hlen. unfold Builder.cluster_step.
  cbn [Py.last_item list.last mbind result_bind].
  rewrite decide_False by by rewrite len_zero_iff.
  rewrite (mean_nonempty cur Hne). cbn [mbind result_bind]. rewrite Hfar.
  by rewrite decide_True by (unfold Py.len; lia).
Qed.

Lemma step_close cur p :
  Builder.near p.2 (avg (cur.*2)) = false → (3 ≤ length cur)%nat →
  Builder.cluster_step [cur] p = Ok [cur; [p]].
Proof.
  intros Hfar Hlen. unfold Builder.cluster_step.
  cbn [Py.last_item list.last mbind result_bind].
  assert (cur ≠ []) as Hne by (intros ->; cbn in Hlen; lia).
  rewrite decide_False by by rewrite len_zero_iff.
  rewrite (mean_nonempty cur Hne). cbn [mbind result_bind]. rewrite Hfar.
  by rewrite decide_False by (unfold Py.len; lia).
Qed.

(** What one step can turn the last cluster into. *)
Lemma step_cases cur p :
  Builder.cluster_step [cur] p = Ok [cur ++ [p]]
  ∨ Builder.cluster_step [cur] p = Ok [[p]]
  ∨ (Builder.cluster_step [cur] p = Ok [cur; [p]] ∧ (3 ≤ length cur)%nat).
Proof.
  destruct (decide (cur = [])) as [->|Hne]; [by left|].
  destruct (Builder.near p.2 (avg (cur.*2))) eqn:Hnear.
  - left. by apply step_join.
  - destruct (decide (length cur < 3)%nat).
    + right; left. by apply step_restart.
    + right; right. split; [apply step_close; [done|lia] | lia].
Qed.

(** The clusters before the current one are carried along unchanged. *)
Lemma steps_snoc (pts : list (Z * float)) closed cur :
  for_each Builder.cluster_step (closed ++ [cur]) pts
  = (closed ++.) <$> for_each Builder.cluster_step [cur] pts.
Proof.
  revert closed cur. induction pts as [|p pts IH]; intros closed cur; cbn [for_each].
  - done.
  - rewrite step_snoc.
    destruct (step_cases cur p) as [-> | [-> | [-> _]]]; cbn.
    + apply IH.
    + apply IH.
    + replace (closed ++ [cur; [p]]) with ((closed ++ [cur]) ++ [[p]])
        by by rewrite <- app_assoc.
      rewrite (IH (closed ++ [cur]) [p]).
      change (for_each Builder.cluster_step [cur; [p]] pts)
        with (for_each Builder.cluster_step ([cur] ++ [[p]]) pts).
      rewrite (IH [cur] [p]).
      destruct (for_each Builder.cluster_step [[p]] pts); cbn; [|done].
      by rewrite <- app_assoc.
Qed.

(** The clustering pass never raises, and never ends without a
    cluster. *)
Lemma steps_total (pts : list (Z * float)) cur :
  ∃ closed last, for_each Builder.cluster_step [cur] pts = Ok (closed ++ [last]).
Proof.
  revert cur. induction pts as [|p pts IH]; intros cur; cbn [for_each].
  - by exists [], cur.
  - destruct (step_cases cur p) as [-> | [-> | [-> _]]]; cbn; [apply IH..|].
    change [cur; [p]] with ([cur] ++ [[p]]). rewrite steps_snoc.
    destruct (IH [p]) as (closed & last & ->). cbn.
    by exists (cur :: closed), last.
Qed.


(** * The functions on the runtime: trimming *)

(** Once an index is held, the scan keeps holding one, and it is the
    held index or one of the scanned ones. *)
Lemma scan_held (items : list (float * nat)) (d : float) (i : nat) :
  ∃ d' j, foldl Builder.argmax_step (d, Some i) items = (d', Some j)
          ∧ (j = i ∨ j ∈ items.*2).
Proof.
  revert d i. induction items as [|[dev idx] items IH]; intros d i; cbn [foldl].
  - eauto.
  - unfold Builder.argmax_step at 2. cbn [fst]. destruct (flt d dev).
    + destruct (IH dev idx) as (d' & j & -> & Hj). exists d', j. split; [done|].
      right. cbn. destruct Hj as [->|Hj]; [left | by right].
    + destruct (IH d i) as (d' & j & -> & Hj). exists d', j. split; [done|].
      destruct Hj as [->|Hj]; [by left | right; by right].
Qed.

Lemma scan_index (items : list (float * nat)) (d : float) (j : nat) :
  (foldl Builder.argmax_step (d, None) items).2 = Some j → j ∈ items.*2.
Proof.
  revert d. induction items as [|[dev idx] items IH]; intros d; cbn [foldl].
  - done.
  - unfold Builder.argmax_step at 2. cbn [fst]. destruct (flt d dev).
    + destruct (scan_held items dev idx) as (d' & j' & -> & Hj). cbn.
      intros [= ->]. destruct Hj as [->|Hj]; [left | by right].
    + intros Hj%IH. by right.
Qed.

(** The index that the scan returns is an index of the list. *)
Lemma argmax_lt (deviation : list float) (i : nat) :
  Builder.argmax deviation = Some i → (i < length deviation)%nat.
Proof.
  intros Hi%scan_index.
  apply list_elem_of_fmap in Hi as ([x k] & -> & Hin).
  apply elem_of_zip_r, elem_of_seq in Hin. cbn. lia.
Qed.

(** A removal deletes one point. *)
Lemma removal_inv c c' :
  Builder.trim_step c = Ok c' → ∃ i, (i < length c)%nat ∧ c' = delete i c.
Proof.
  unfold Builder.trim_step. intros (a & Ha & Hpop)%bind_Ok_inv.
  unfold Py.pop in Hpop. destruct (Builder.argmax _) as [i|]; [|done].
  case_decide; [|done]. injection Hpop as <-. eauto.
Qed.

(** A removal fails on the empty cluster, where the mean divides by
    zero, and when the scan finds no index, where [pop(None)] is a
    [TypeError]. *)
Lemma removal_raise c e :
  Builder.trim_step c = Raise e →
  (c = [] ∧ e = ZeroDivisionError) ∨ (c ≠ [] ∧ e = TypeError).
Proof.
  unfold Builder.trim_step. destruct c as [|p c]; [intros [= <-]; by left|].
  rewrite mean_nonempty by done. cbn [mbind result_bind].
  unfold Py.pop. destruct (Builder.argmax _) as [i|] eqn:Hi.
  - apply argmax_lt in Hi. rewrite length_fmap in Hi. by rewrite decide_True.
  - intros [= <-]. by right.
Qed.

Lemma repeat_trim_inv (k : nat) c c' :
  repeat_n k Builder.trim_step c = Ok c' →
  c' `sublist_of` c ∧ (length c' + k = length c)%nat.
Proof.
  revert c. induction k as [|k IH]; intros c; cbn [repeat_n].
  - intros [= <-]. split; [done | lia].
  - intros (c1 & (i & Hi & ->)%removal_inv & [Hsub Hlen]%IH)%bind_Ok_inv.
    split; [etrans; [exact Hsub | apply sublist_delete]|].
    rewrite length_delete in Hlen by by apply lookup_lt_is_Some. lia.
Qed.

Lemma repeat_trim_raise (k : nat) c e :
  (k ≤ length c)%nat → repeat_n k Builder.trim_step c = Raise e → e = TypeError.
Proof.
  revert c. induction k as [|k IH]; intros c Hk; cbn [repeat_n]; [done|].
  destruct (Builder.trim_step c) as [c1|e1] eqn:Hstep; cbn [mbind result_bind].
  - apply removal_inv in Hstep as (i & Hi & ->). apply IH.
    rewrite length_delete by by apply lookup_lt_is_Some. lia.
  - intros [= <-]. apply removal_raise in Hstep as [[-> _] | [_ ->]]; [|done].
    cbn in Hk. lia.
Qed.

(** From a cluster of at least two points, half of the points are
    removed, rounded down. *)
Lemma removals_ge_2 c :
  (2 ≤ length c)%nat →
  Z.to_nat (points_to_remove (Py.len c)) = (length c / 2)%nat
  ∧ (1 ≤ length c / 2 < length c)%nat.
Proof.
  intros Hc.
  destruct (points_to_remove_ge_2 (Py.len c)) as [-> Hn]; [unfold Py.len; lia|].
  unfold Py.len in *.
  replace (Z.to_nat (Z.of_nat (length c) / 2)) with (length c / 2)%nat
    by (rewrite <- (Nat2Z.inj_div _ 2), Nat2Z.id; done).
  split; [done|]. split; [|apply Nat.div_lt; lia].
  apply Nat2Z.inj_le. rewrite (Nat2Z.inj_div _ 2). lia.
Qed.

Lemma trim_inv c kept :
  (2 ≤ length c)%nat → Builder.trim c = Ok kept →
  kept ≠ [] ∧ kept `sublist_of` c
  ∧ length kept = (length c - length c / 2)%nat.
Proof.
  intros Hc. unfold Builder.trim.
  destruct (removals_ge_2 c Hc) as [-> Hhalf].
  intros [Hsub Hlen]%repeat_trim_inv. split; [|split; [done | lia]].
  intros ->. cbn [length] in Hlen. lia.
Qed.

Lemma trim_raise c e :
  (2 ≤ length c)%nat → Builder.trim c = Raise e → e = TypeError.
Proof.
  intros Hc. unfold Builder.trim.
  destruct (removals_ge_2 c Hc) as [-> Hhalf].
  apply repeat_trim_raise. lia.
Qed.

(** What is left of a cluster, whatever its size. *)
Lemma trim_sublist_of c kept : Builder.trim c = Ok kept → kept `sublist_of` c.
Proof. unfold Builder.trim. by intros [? _]%repeat_trim_inv. Qed.

(** * The functions on the runtime: the levels *)

Lemma levels_cons c clusters :
  Builder.levels (c :: clusters)
  = kept ← Builder.trim c;
    trimmed ← mapM Builder.trim clusters;
    level ← Builder.mean kept;
    lv ← mapM Builder.mean trimmed;
    Ok (level :: lv).
Proof.
  unfold Builder.levels. cbn [mapM].
  destruct (Builder.trim c) as [kept|e]; cbn; [|done].
  destruct (mapM Builder.trim clusters) as [trimmed|e]; cbn; [|done]. done.
Qed.

(** Clusters of at least two points all have a level, unless a scan
    finds no index. *)
Lemma levels_ge_2 clusters :
  Forall (λ c, 2 ≤ length c)%nat clusters →
  Builder.levels clusters = Raise TypeError
  ∨ ∃ lv, Builder.levels clusters = Ok lv
          ∧ Forall2 (λ c level, level_of (c.*2) level) clusters lv.
Proof.
  induction 1 as [|c clusters Hc _ IH].
  - right. exists []. split; [done | constructor].
  - rewrite levels_cons.
    destruct (Builder.trim c) as [kept|e] eqn:Hkept; cbn [mbind result_bind].
    2:{ left. by rewrite (trim_raise c e Hc Hkept). }
    apply (trim_inv c kept Hc) in Hkept as (Hne & Hsub & Hlen).
    unfold Builder.levels in IH.
    destruct (mapM Builder.trim clusters) as [trimmed|e]; cbn [mbind result_bind] in *.
    2:{ left. by destruct IH as [IH | (lv & [=] & _)]. }
    rewrite (mean_nonempty kept Hne). cbn [mbind result_bind].
    destruct IH as [-> | (lv & -> & Hlv)]; [by left|]. right.
    exists (avg (kept.*2) :: lv). split; [done|]. constructor; [|done].
    exists (kept.*2). rewrite !length_fmap. repeat split; try done.
    + by apply fmap_sublist.
    + by destruct kept.
Qed.

(** The levels of two lists of clusters, one after the other. *)
Lemma levels_app_inv clusters1 clusters2 (lv : list float) :
  Builder.levels (clusters1 ++ clusters2) = Ok lv →
  ∃ lv1 lv2, Builder.levels clusters1 = Ok lv1 ∧ Builder.levels clusters2 = Ok lv2
             ∧ lv = lv1 ++ lv2 ∧ length lv1 = length clusters1.
Proof.
  unfold Builder.levels. intros (trimmed & Htrim & Hmean)%bind_Ok_inv.
  apply mapM_Ok_inv, Forall2_app_inv_l in Htrim as (t1 & t2 & Ht1 & Ht2 & ->).
  apply mapM_Ok_inv, Forall2_app_inv_l in Hmean as (lv1 & lv2 & Hlv1 & Hlv2 & ->).
  exists lv1, lv2.
  rewrite (mapM_Ok _ _ _ Ht1), (mapM_Ok _ _ _ Ht2). cbn [mbind result_bind].
  rewrite (mapM_Ok _ _ _ Hlv1), (mapM_Ok _ _ _ Hlv2). repeat split; try done.
  by rewrite <- (Forall2_length _ _ _ Hlv1), <- (Forall2_length _ _ _ Ht1).
Qed.

(** Every level is the mean of the rates kept of its cluster. *)
Lemma levels_inv clusters (lv : list float) :
  Builder.levels clusters = Ok lv →
  Forall2 (λ c level, ∃ kept, Builder.trim c = Ok kept ∧ kept ≠ []
                              ∧ kept `sublist_of` c ∧ level = avg (kept.*2))
          clusters lv.
Proof.
  unfold Builder.levels. intros (trimmed & Htrim & Hmean)%bind_Ok_inv.
  apply mapM_Ok_inv in Htrim. apply mapM_Ok_inv in Hmean.
  revert lv Hmean. induction Htrim as [|c kept clusters trimmed Hc _ IH]; intros lv Hmean.
  - apply Forall2_nil_inv_l in Hmean as ->. constructor.
  - apply Forall2_cons_inv_l in Hmean as (level & lv' & [Hne ->]%mean_inv & Hlv' & ->).
    constructor; [|by apply IH]. exists kept. repeat split; try done.
    by apply trim_sublist_of.
Qed.

(** * The functions on the runtime: the rates *)


Lemma keys_length (s : list (string * Z)) (bytes : list Z) :
  Builder.keys s = Ok bytes → length bytes = length s.
Proof.
  intros H%mapM_Ok_inv. apply Forall2_length in H. by rewrite length_fmap in H.
Qed.


Lemma get_bandwidth_unfold (s : list (string * Z)) (f : Z) (bytes : list Z)
    (rs : list float) :
  Builder.keys s = Ok bytes → Builder.rates bytes (s.*2) f = Ok rs →
  Builder.get_bandwidth s f = Builder.clustering (zip bytes rs) ≫= Builder.levels.
Proof. intros Hkeys Hrates. unfold Builder.get_bandwidth. by rewrite Hkeys; cbn; rewrite Hrates. Qed.

(** A sweep and its rates, item by item. *)
Lemma rates_computes (s : list (string * Z)) (f : Z) (bytes : list Z) (rs : list float) :
  Builder.keys s = Ok bytes → Builder.rates bytes (s.*2) f = Ok rs →
  Forall2 (computes f) s rs.
Proof.
  unfold Builder.keys, Builder.rates. intros Hkeys%mapM_Ok_inv.
  revert rs. remember (s.*1) as ks eqn:Hks. revert s Hks.
  induction Hkeys as [|key b ks bytes Hb _ IH]; intros s Hks rs.
  - symmetry in Hks. apply fmap_nil_inv in Hks as ->. by intros [= <-].
  - destruct s as [|[key' c] s]; [done|]. injection Hks as -> ->.
    cbn. intros (r & (q & Hq & Hr)%bind_Ok_inv & (rs' & Hrs' & [= <-])%bind_Ok_inv)%bind_Ok_inv.
    constructor; [by exists b, q | by apply IH].
Qed.

Lemma computes_rates (s : list (string * Z)) (f : Z) (rs : list float) :
  Forall2 (computes f) s rs →
  ∃ bytes, Builder.keys s = Ok bytes ∧ Builder.rates bytes (s.*2) f = Ok rs.
Proof.
  unfold Builder.keys, Builder.rates.
  induction 1 as [|[key c] r s rs (b & q & Hb & Hq & Hr) _ (bytes & Hkeys & Hrates)].
  - by exists [].
  - exists (b :: bytes). cbn in *. rewrite Hb, Hkeys, Hq. cbn. rewrite Hr. cbn.
    by rewrite Hrates.
Qed.

End OnRuntime.

(** * Binary64 is a runtime *)

Lemma compare_lex_lt (e1 e2 : Z) (m1 m2 : positive) :
  match (e1 ?= e2)%Z with
  | Lt => Lt
  | Gt => Gt
  | Eq => Pos.compare_cont Eq m1 m2
  end = Lt ↔ (e1 < e2)%Z ∨ (e1 = e2 ∧ (m1 < m2)%positive).
Proof.
  change (Pos.compare_cont Eq m1 m2) with (m1 ?= m2)%positive.
  destruct (Z.compare_spec e1 e2); [|split; [auto | done]|split; [done | lia]].
  rewrite Pos.compare_lt_iff. split; [auto | lia].
Qed.

Lemma compare_lex_gt (e1 e2 : Z) (m1 m2 : positive) :
  match (e1 ?= e2)%Z with
  | Lt => Gt
  | Gt => Lt
  | Eq => CompOpp (Pos.compare_cont Eq m1 m2)
  end = Lt ↔ (e2 < e1)%Z ∨ (e1 = e2 ∧ (m2 < m1)%positive).
Proof.
  change (Pos.compare_cont Eq m1 m2) with (m1 ?= m2)%positive.
  destruct (Z.compare_spec e1 e2); [|split; [done | lia]|split; [auto | done]].
  rewrite <- Pos.compare_antisym, Pos.compare_lt_iff. split; [auto | lia].
Qed.

Lemma is_Lt_true (c : comparison) :
  match c with Lt => true | _ => false end = true ↔ c = Lt.
Proof. by destruct c. Qed.

Lemma SFltb_irrefl (x : spec_float) : SFltb x x = false.
Proof.
  unfold SFltb. destruct x as [[]|[]| |[] m e]; cbn; try done;
    rewrite Z.compare_refl; cbn;
    change (Pos.compare_cont Eq m m) with (m ?= m)%positive;
    by rewrite Pos.compare_refl.
Qed.

Lemma SFltb_trans (x y z : spec_float) :
  SFltb x y = true → SFltb y z = true → SFltb x z = true.
Proof.
  unfold SFltb.
  destruct x as [sx|sx| |sx mx ex], y as [sy|sy| |sy my ey], z as [sz|sz| |sz mz ez];
    cbn; try done;
    repeat match goal with s : bool |- _ => destruct s end; cbn; try done;
    rewrite !is_Lt_true, ?compare_lex_lt, ?compare_lex_gt; lia.
Qed.

#[global] Instance b64_laws : RuntimeLaws B64.runtime.
Proof.
  split.
  - done.
  - apply SFltb_irrefl.
  - apply SFltb_trans.
Qed.

(** * One level, on the runtime *)



(** * Runs of points, on the runtime *)






(** * Trimming, on the runtime *)

(** C4, as stated, fails: the three rates of [huge_rates] at 1e300 Hz
    are finite floats and form one cluster of 3 points; one point is
    removed, the sum of the two rates left exceeds the largest float,
    and the value that [get_bandwidth] returns is the mean of a
    non-empty set and is infinite. *)
Lemma level_not_finite :
  Builder.rates (R:=B64.runtime) [85000000; 90000000; 95000000]%Z (huge_rates.*2)
    (10 ^ 300)
  = Ok [b64 8517715530038135 970; b64 4509378810020189 971;
        b64 4759899855021311 971]
  ∧ Builder.clustering (R:=B64.runtime)
      [(85000000%Z, b64 8517715530038135 970);
       (90000000%Z, b64 4509378810020189 971);
       (95000000%Z, b64 4759899855021311 971)]
    = Ok [[(85000000%Z, b64 8517715530038135 970);
           (90000000%Z, b64 4509378810020189 971);
           (95000000%Z, b64 4759899855021311 971)]]
  ∧ Builder.get_bandwidth (R:=B64.runtime) huge_rates (10 ^ 300)
    = Ok [S754_infinity false].
Proof. split; [by_eval|]. split; by_eval. Qed.

(** C4, amended: the trimming of a cluster of [n] points, [n] at least
    2, either raises [TypeError] (a scan found no index) or leaves
    [n - n/2] of its points, at least one, whose mean is then taken;
    and every value that [get_bandwidth] returns is the mean of the
    rates of the points left of a cluster, of which there is at least
    one.  The value need not be finite. *)
Theorem trimming_leaves_a_point {R : Runtime} (c : list (Z * float))
    (s : list (string * Z)) (f : Z) (level_bandwidth : list float) :
  ((2 ≤ length c)%nat →
   Builder.trim c = Raise TypeError
   ∨ ∃ kept, Builder.trim c = Ok kept ∧ kept ≠ [] ∧ kept `sublist_of` c
             ∧ length kept = (length c - length c / 2)%nat
             ∧ Builder.mean kept = Ok (avg (kept.*2)))
  ∧ (Builder.get_bandwidth s f = Ok level_bandwidth →
     ∃ (bytes : list Z) (bandwidth : list float) (clusters : list (list (Z * float))),
       Builder.keys s = Ok bytes
       ∧ Builder.rates bytes (s.*2) f = Ok bandwidth
       ∧ Builder.clustering (zip bytes bandwidth) = Ok clusters
       ∧ Forall2 (λ c level, ∃ kept, Builder.trim c = Ok kept ∧ kept ≠ []
                                     ∧ kept `sublist_of` c
                                     ∧ level = avg (kept.*2))
                 clusters level_bandwidth).
Proof.
  split.
  - intros Hc. destruct (Builder.trim c) as [kept|e] eqn:Htrim.
    + right. exists kept. split; [done|].
      destruct (trim_inv c kept Hc Htrim) as (Hne & Hsub & Hlen).
      repeat split; try done. by apply mean_nonempty.
    + left. by rewrite (trim_raise c e Hc Htrim).
  - unfold Builder.get_bandwidth.
    intros (bytes & Hkeys & (bandwidth & Hrates & (clusters & Hclusters & Hlv)%bind_Ok_inv)%bind_Ok_inv)%bind_Ok_inv.
    exists bytes, bandwidth, clusters. repeat split; try done.
    by apply levels_inv.
Qed.

(** An instance of C4 on binary64: a cluster of two points, and the
    memory scenario. *)
Lemma trimming_leaves_a_point_witness :
  let c := [(64%Z, B64.of_Z 2); (128%Z, B64.of_Z 3)] in
  (Builder.trim (R:=B64.runtime) c = Raise TypeError
   ∨ ∃ kept, Builder.trim (R:=B64.runtime) c = Ok kept ∧ kept ≠ []
             ∧ kept `sublist_of` c
             ∧ length kept = (length c - length c / 2)%nat
             ∧ Builder.mean (R:=B64.runtime) kept = Ok (avg (R:=B64.runtime) (kept.*2)))
  ∧ ∃ (bytes : list Z) (bandwidth : list spec_float)
      (clusters : list (list (Z * spec_float))),
      Builder.keys (R:=B64.runtime) memory_benchmark = Ok bytes
      ∧ Builder.rates (R:=B64.runtime) bytes (memory_benchmark.*2) 1000000000
        = Ok bandwidth
      ∧ Builder.clustering (R:=B64.runtime) (zip bytes bandwidth) = Ok clusters
      ∧ Forall2 (λ c level, ∃ kept, Builder.trim (R:=B64.runtime) c = Ok kept
                                    ∧ kept ≠ [] ∧ kept `sublist_of` c
                                    ∧ level = avg (R:=B64.runtime) (kept.*2))
                clusters [b64 5368709120000000 (-25)].
Proof.
  intros c.
  pose proof (trimming_leaves_a_point (R:=B64.runtime) c memory_benchmark
                1000000000%Z [b64 5368709120000000 (-25)]) as [Hkeep Hmean].
  split.
  - apply Hkeep. cbn. lia.
  - apply Hmean. by_eval.
Defined.

(** * Short clusters, on the runtime *)

(** C6, as stated, fails: in [short_then_far] at 1 Hz the first two
    points have the rate 1 and form a cluster of 2 points, and the third
    point has the rate 6/5, which deviates from their mean by exactly
    20 % of it.  In binary64 the quotient 6/5 is the float below 1.2 and
    the product 0.2 * 1.0 is the float above 0.2: the test of line 33
    passes, the cluster is kept and extended, and [get_bandwidth]
    returns the mean 1.0 of its first two points. *)
Lemma short_cluster_kept :
  rates [5; 10; 6]%Z [5; 10; 5]%Z 1 = Ok [Q2Qc 1; Q2Qc 1; Q2Qc (6 # 5)]
  ∧ clustering [(5%Z, Q2Qc 1); (10%Z, Q2Qc 1)] = Ok [[(5%Z, Q2Qc 1); (10%Z, Q2Qc 1)]]
  ∧ mean [(5%Z, Q2Qc 1); (10%Z, Q2Qc 1)] = Ok (Q2Qc 1)
  ∧ (CLUSTER_THRESHOLD * Q2Qc 1 ≤ Py.abs (Q2Qc (6 # 5) - Q2Qc 1))%Qc
  ∧ Builder.keys (R:=B64.runtime) short_then_far = Ok [5; 10; 6]%Z
  ∧ Builder.rates (R:=B64.runtime) [5; 10; 6]%Z (short_then_far.*2) 1
    = Ok [b64 4503599627370496 (-52); b64 4503599627370496 (-52);
          b64 5404319552844595 (-52)]
  ∧ Builder.clustering (R:=B64.runtime)
      [(5%Z, b64 4503599627370496 (-52)); (10%Z, b64 4503599627370496 (-52));
       (6%Z, b64 5404319552844595 (-52))]
    = Ok [[(5%Z, b64 4503599627370496 (-52)); (10%Z, b64 4503599627370496 (-52));
           (6%Z, b64 5404319552844595 (-52))]]
  ∧ Builder.get_bandwidth (R:=B64.runtime) short_then_far 1
    = Ok [b64 4503599627370496 (-52)].
Proof. repeat split; by_eval. Qed.

(** C6, amended: when the test of line 33, as the runtime computes it,
    fails for a point against the mean of a current cluster of fewer
    than 3 points, that cluster is overwritten by a cluster of the
    point alone: the clusters of the whole sweep are the clusters closed
    before, followed by the clusters of the sweep restarted at that
    point, and the values that [get_bandwidth] returns, when it
    returns, are the levels of the former followed by the levels of the
    latter.  The overwritten cluster contributes no value. *)
Theorem short_cluster_overwritten {R : Runtime}
    (pre post : list (Z * float)) (p : Z * float)
    (closed : list (list (Z * float))) (cur : list (Z * float)) (a : float) :
  Builder.clustering pre = Ok (closed ++ [cur]) →
  (length cur < 3)%nat → Builder.mean cur = Ok a →
  Builder.near p.2 a = false →
  Builder.clustering (pre ++ [p]) = Ok (closed ++ [[p]])
  ∧ Builder.clustering (pre ++ p :: post)
    = (closed ++.) <$> Builder.clustering (p :: post)
  ∧ ∀ lv, Builder.clustering (pre ++ p :: post) ≫= Builder.levels = Ok lv →
          ∃ lv1 lv2,
            Builder.levels closed = Ok lv1 ∧ length lv1 = length closed
            ∧ Builder.clustering (p :: post) ≫= Builder.levels = Ok lv2
            ∧ lv = lv1 ++ lv2.
Proof.
  intros Hpre Hlen [Hne ->]%mean_inv Hfar.
  assert (Builder.cluster_step (closed ++ [cur]) p = Ok (closed ++ [[p]])) as Hstep.
  { by rewrite step_snoc, (step_restart cur p). }
  assert (Builder.clustering (pre ++ p :: post)
          = (closed ++.) <$> Builder.clustering (p :: post)) as Hwhole.
  { unfold Builder.clustering in *. rewrite for_each_app, Hpre.
    cbn [mbind result_bind for_each]. rewrite Hstep, step_first.
    cbn [mbind result_bind]. apply steps_snoc. }
  split; [|split; [done|]].
  - unfold Builder.clustering in *. rewrite for_each_app, Hpre.
    cbn [mbind result_bind for_each]. by rewrite Hstep.
  - intros lv. rewrite Hwhole.
    destruct (Builder.clustering (p :: post)) as [cs|e]; cbn; [|done].
    intros (lv1 & lv2 & Hlv1 & Hlv2 & -> & Hlen1)%levels_app_inv.
    by exists lv1, lv2.
Qed.

(** An instance of C6 on binary64: a run of two points at rate 50,
    after a closed cluster at rate 100, is overwritten by a point at
    rate 10. *)
Lemma short_cluster_overwritten_witness :
  let a := B64.of_Z 100 in
  let b := B64.of_Z 50 in
  let c := B64.of_Z 10 in
  let closed := [[(1%Z, a); (2%Z, a); (3%Z, a)]] in
  let pre := [(1%Z, a); (2%Z, a); (3%Z, a); (4%Z, b); (5%Z, b)] in
  let post := [(7%Z, c); (8%Z, c)] in
  Builder.clustering (R:=B64.runtime) (pre ++ [(6%Z, c)]) = Ok (closed ++ [[(6%Z, c)]])
  ∧ Builder.clustering (R:=B64.runtime) (pre ++ (6%Z, c) :: post)
    = (closed ++.) <$> Builder.clustering (R:=B64.runtime) ((6%Z, c) :: post)
  ∧ ∀ lv, Builder.clustering (R:=B64.runtime) (pre ++ (6%Z, c) :: post)
            ≫= Builder.levels = Ok lv →
          ∃ lv1 lv2,
            Builder.levels (R:=B64.runtime) closed = Ok lv1
            ∧ length lv1 = length closed
            ∧ Builder.clustering (R:=B64.runtime) ((6%Z, c) :: post)
                ≫= Builder.levels = Ok lv2
            ∧ lv = lv1 ++ lv2.
Proof.
  intros a b c closed pre post.
  apply (short_cluster_overwritten (R:=B64.runtime) pre post (6%Z, c) closed
           [(4%Z, b); (5%Z, b)] b).
  - by_eval.
  - cbn. lia.
  - by_eval.
  - by_eval.
Defined.

(** * Errors, on the runtime *)

Lemma mapM_raise_app {A B} (f : A → result B) (l1 l2 : list A) (e : exn) :
  mapM f l1 = Raise e → mapM f (l1 ++ l2) = Raise e.
Proof.
  induction l1 as [|x l1 IH]; cbn; [done|].
  destruct (f x) as [y|e']; cbn; [|done].
  destruct (mapM f l1) as [k|e']; cbn; [done|].
  intros [= <-]. by rewrite IH.
Qed.

Section Laws.
Context {R : Runtime} `{!RuntimeLaws R}.

(** A zero cycle count leaves no rate. *)
Lemma computes_zero (f : Z) (key : string) (r : float) : ¬ computes f (key, 0%Z) r.
Proof. intros (b & q & _ & Hq & _). cbn in Hq. by rewrite truediv_zero in Hq. Qed.

Lemma rates_zero (s : list (string * Z)) (f : Z) (bytes : list Z) (rs : list float) :
  0%Z ∈ s.*2 → Builder.keys s = Ok bytes → Builder.rates bytes (s.*2) f ≠ Ok rs.
Proof.
  intros H0 Hkeys Hrates. pose proof (rates_computes s f bytes rs Hkeys Hrates) as Hall.
  apply list_elem_of_fmap in H0 as ([key c] & Hc & Hin). cbn in Hc. subst c.
  apply list_elem_of_lookup in Hin as [i Hi].
  destruct (Forall2_lookup_l _ _ _ _ _ Hall Hi) as (r & _ & Hr).
  by apply computes_zero in Hr.
Qed.

(** The rates up to the first zero cycle count are computed, the
    quotient by zero raises. *)
Lemma rates_first_zero (pre post : list (string * Z)) (key : string) (f : Z)
    (bytes : list Z) (rs : list float) :
  Builder.keys (pre ++ (key, 0%Z) :: post) = Ok bytes →
  Builder.rates (take (length pre) bytes) (pre.*2) f = Ok rs →
  Builder.rates bytes ((pre ++ (key, 0%Z) :: post).*2) f = Raise ZeroDivisionError.
Proof.
  intros Hkeys Hpre. pose proof (keys_length _ _ Hkeys) as Hlen.
  rewrite length_app in Hlen. cbn [length] in Hlen.
  rewrite <- (take_drop (length pre) bytes) in Hkeys |- *.
  destruct (drop (length pre) bytes) as [|b bytes2] eqn:Hdrop.
  { apply (f_equal length) in Hdrop. rewrite length_drop in Hdrop. cbn in Hdrop. lia. }
  unfold Builder.rates in *. rewrite fmap_app, zip_with_app.
  2:{ rewrite length_take, length_fmap. lia. }
  rewrite (mapM_app_Ok _ _ _ _ Hpre). cbn. by rewrite truediv_zero.
Qed.

(** * The maximum, on the runtime *)

Lemma max_scan (rest seen : list float) (m : float) :
  m ∈ seen → Forall (λ y, flt m y = false) seen →
  let m' := foldl (λ m y, if flt m y then y else m) m rest in
  m' ∈ seen ++ rest ∧ Forall (λ y, flt m' y = false) (seen ++ rest).
Proof.
  revert seen m. induction rest as [|y rest IH]; intros seen m Hin Hall; cbn [foldl].
  - by rewrite (right_id_L [] (++)).
  - replace (seen ++ y :: rest) with ((seen ++ [y]) ++ rest) by by rewrite <- app_assoc.
    destruct (flt m y) eqn:Hy; apply IH.
    + apply elem_of_app. right. by left.
    + apply Forall_app. split; [|apply Forall_singleton, flt_irrefl].
      eapply Forall_impl; [exact Hall|]. intros z Hz. cbn beta in Hz |- *.
      destruct (flt y z) eqn:Hyz; [|done].
      by rewrite (flt_trans m y z Hy Hyz) in Hz.
    + apply elem_of_app. by left.
    + apply Forall_app. split; [done | by apply Forall_singleton].
Qed.

(** [max] of a non-empty list is one of its items, and no item is
    greater. *)
Lemma max_greatest (xs : list float) :
  xs ≠ [] →
  ∃ m, Builder.max xs = Ok m ∧ m ∈ xs ∧ Forall (λ y, flt m y = false) xs.
Proof.
  destruct xs as [|x rest]; [done|]. intros _. eexists. split; [done|].
  apply (max_scan rest [x] x); [by left|]. apply Forall_singleton, flt_irrefl.
Qed.

End Laws.

Lemma Forall2_perm_l {A B} (P : A → B → Prop) (l l' : list A) (k : list B) :
  l ≡ₚ l' → Forall2 P l k → ∃ k', k ≡ₚ k' ∧ Forall2 P l' k'.
Proof.
  intros Hperm. revert k. induction Hperm as [|x l l' _ IH|x y l|l1 l2 l3 _ IH1 _ IH2]; intros k.
  - intros ->%Forall2_nil_inv_l. by exists [].
  - intros (z & k0 & Hz & (k' & Hk' & Hall)%IH & ->)%Forall2_cons_inv_l.
    exists (z :: k'). split; [by constructor | by constructor].
  - intros (z & k0 & Hz & (w & k1 & Hw & Hall & ->)%Forall2_cons_inv_l & ->)%Forall2_cons_inv_l.
    exists (w :: z :: k1). split; [apply perm_swap | by repeat constructor].
  - intros (k2 & Hk2 & (k3 & Hk3 & Hall)%IH2)%IH1.
    exists k3. split; [by etrans | done].
Qed.

(** * Peak performance, on the runtime *)

(** C7, as stated, fails: on the non-empty sweep {"1": 1} at the
    frequency 10^400, an int that no float holds, the product
    [frequency_hz * (o / c)] raises [OverflowError] and
    [get_peak_performance] returns no value. *)
Lemma peak_performance_overflow :
  [("1", 1%Z)] ≠ []
  ∧ Builder.get_peak_performance (R:=B64.runtime) [("1", 1%Z)] (10 ^ 400)
    = Raise OverflowError.
Proof. split; [done | by_eval]. Qed.

(** C7, amended: for a non-empty sweep whose keys are read and whose
    rates are all computed, [get_peak_performance] returns one of the
    rates, and no rate is greater than it; every reordering of the
    sweep returns a value that is neither less nor greater.  On
    binary64 the scenario sweep at 1e9 Hz gives 4e9. *)
Theorem peak_performance_is_greatest :
  (∀ (R : Runtime), RuntimeLaws R →
   ∀ (s : list (string * Z)) (f : Z) (ops : list Z) (performance : list float),
     s ≠ [] →
     Builder.keys s = Ok ops → Builder.rates ops (s.*2) f = Ok performance →
     ∃ m, Builder.get_peak_performance s f = Ok m
          ∧ m ∈ performance
          ∧ Forall (λ r, flt m r = false) performance
          ∧ ∀ s', s' ≡ₚ s →
                  ∃ m', Builder.get_peak_performance s' f = Ok m'
                        ∧ flt m m' = false ∧ flt m' m = false)
  ∧ Builder.get_peak_performance (R:=B64.runtime) arithmetic_benchmark 1000000000
    = Ok (B64.of_Z 4000000000).
Proof.
  split; [|by_eval].
  intros R HR s f ops performance Hne Hkeys Hrates.
  pose proof (rates_computes s f ops performance Hkeys Hrates) as Hall.
  assert (∀ s' perf', Forall2 (computes f) s' perf' → s' ≠ [] →
            ∃ m, Builder.get_peak_performance s' f = Ok m
                 ∧ m ∈ perf' ∧ Forall (λ r, flt m r = false) perf') as Hmax.
  { intros s' perf' Hall' Hne'.
    destruct (computes_rates s' f perf' Hall') as (ops' & Hkeys' & Hrates').
    unfold Builder.get_peak_performance. rewrite Hkeys'. cbn [mbind result_bind].
    rewrite Hrates'. cbn [mbind result_bind]. apply max_greatest.
    intros ->. apply Forall2_nil_inv_r in Hall'. done. }
  destruct (Hmax s performance Hall Hne) as (m & Hm & Hin & Hgreatest).
  exists m. repeat split; try done.
  intros s' Hperm. symmetry in Hperm.
  destruct (Forall2_perm_l _ _ _ _ Hperm Hall) as (perf' & Hperf' & Hall').
  destruct (Hmax s' perf' Hall') as (m' & Hm' & Hin' & Hgreatest').
  { intros ->. by apply Permutation_nil_r in Hperm. }
  exists m'. split; [done|]. rewrite Forall_forall in Hgreatest, Hgreatest'.
  split; [apply Hgreatest; by rewrite Hperf' | apply Hgreatest'; by rewrite <- Hperf'].
Qed.

(** An instance of C7 on binary64: the arithmetic scenario. *)
Lemma peak_performance_is_greatest_witness :
  ∃ m, Builder.get_peak_performance (R:=B64.runtime) arithmetic_benchmark 1000000000
       = Ok m
       ∧ m ∈ [B64.of_Z 2000000000; b64 4660337777777778 (-21); B64.of_Z 4000000000]
       ∧ Forall (λ r, SFltb m r = false)
                [B64.of_Z 2000000000; b64 4660337777777778 (-21); B64.of_Z 4000000000]
       ∧ ∀ s', s' ≡ₚ arithmetic_benchmark →
               ∃ m', Builder.get_peak_performance (R:=B64.runtime) s' 1000000000 = Ok m'
                     ∧ SFltb m m' = false ∧ SFltb m' m = false.
Proof.
  apply (proj1 peak_performance_is_greatest B64.runtime b64_laws
           arithmetic_benchmark 1000000000%Z [100; 200; 400]%Z
           [B64.of_Z 2000000000; b64 4660337777777778 (-21); B64.of_Z 4000000000]).
  - done.
  - by_eval.
  - by_eval.
Defined.

(** * Zero cycle counts, on the runtime *)

(** C9, amended: a sweep with a zero cycle count makes neither
    extractor return a value.  When the keys are all read and the rates
    of the points before the first zero count are computed, both raise
    [ZeroDivisionError] at the quotient by zero; an exception raised
    before that point is raised instead.  Nothing else looks at a cycle
    count: a negative one is divided by. *)
Theorem zero_cycles_never_return {R : Runtime} `{!RuntimeLaws R}
    (s : list (string * Z)) (f : Z) :
  0%Z ∈ s.*2 →
  (∀ level_bandwidth, Builder.get_bandwidth s f ≠ Ok level_bandwidth)
  ∧ (∀ peak_perf, Builder.get_peak_performance s f ≠ Ok peak_perf)
  ∧ (∀ pre key post bytes rs,
       s = pre ++ (key, 0%Z) :: post →
       Builder.keys s = Ok bytes →
       Builder.rates (take (length pre) bytes) (pre.*2) f = Ok rs →
       Builder.get_bandwidth s f = Raise ZeroDivisionError
       ∧ Builder.get_peak_performance s f = Raise ZeroDivisionError)
  ∧ (∀ pre key post bytes e,
       s = pre ++ (key, 0%Z) :: post →
       Builder.keys s = Raise e
       ∨ (Builder.keys s = Ok bytes
          ∧ Builder.rates (take (length pre) bytes) (pre.*2) f = Raise e) →
       Builder.get_bandwidth s f = Raise e
       ∧ Builder.get_peak_performance s f = Raise e).
Proof.
  intros H0. split; [|split; [|split]].
  - intros lv. unfold Builder.get_bandwidth.
    intros (bytes & Hkeys & (rs & Hrates & _)%bind_Ok_inv)%bind_Ok_inv.
    by eapply rates_zero.
  - intros m. unfold Builder.get_peak_performance.
    intros (bytes & Hkeys & (rs & Hrates & _)%bind_Ok_inv)%bind_Ok_inv.
    by eapply rates_zero.
  - intros pre key post bytes rs -> Hkeys Hpre.
    unfold Builder.get_bandwidth, Builder.get_peak_performance.
    rewrite Hkeys. cbn [mbind result_bind].
    by rewrite (rates_first_zero pre post key f bytes rs Hkeys Hpre).
  - intros pre key post bytes e -> [Hkeys | [Hkeys Hpre]];
      unfold Builder.get_bandwidth, Builder.get_peak_performance;
      rewrite Hkeys; cbn [mbind result_bind]; [done|].
    pose proof (keys_length _ _ Hkeys) as Hlen.
    rewrite length_app in Hlen. cbn [length] in Hlen.
    assert (Builder.rates bytes ((pre ++ (key, 0%Z) :: post).*2) f = Raise e) as ->; [|done].
    rewrite <- (take_drop (length pre) bytes) at 1.
    unfold Builder.rates in *. rewrite fmap_app, zip_with_app.
    + by apply mapM_raise_app.
    + rewrite length_take, length_fmap. lia.
Qed.

(** An instance of C9 on binary64: a zero cycle count after a point
    whose rate is computed. *)
Lemma zero_cycles_never_return_witness :
  let s := [("64", 10%Z); ("128", 0%Z)] in
  (∀ level_bandwidth, Builder.get_bandwidth (R:=B64.runtime) s 1000000000
                      ≠ Ok level_bandwidth)
  ∧ (∀ peak_perf, Builder.get_peak_performance (R:=B64.runtime) s 1000000000
                  ≠ Ok peak_perf)
  ∧ (∀ pre key post bytes rs,
       s = pre ++ (key, 0%Z) :: post →
       Builder.keys (R:=B64.runtime) s = Ok bytes →
       Builder.rates (R:=B64.runtime) (take (length pre) bytes) (pre.*2) 1000000000
       = Ok rs →
       Builder.get_bandwidth (R:=B64.runtime) s 1000000000 = Raise ZeroDivisionError
       ∧ Builder.get_peak_performance (R:=B64.runtime) s 1000000000
         = Raise ZeroDivisionError)
  ∧ (∀ pre key post bytes e,
       s = pre ++ (key, 0%Z) :: post →
       Builder.keys (R:=B64.runtime) s = Raise e
       ∨ (Builder.keys (R:=B64.runtime) s = Ok bytes
          ∧ Builder.rates (R:=B64.runtime) (take (length pre) bytes) (pre.*2)
              1000000000 = Raise e) →
       Builder.get_bandwidth (R:=B64.runtime) s 1000000000 = Raise e
       ∧ Builder.get_peak_performance (R:=B64.runtime) s 1000000000 = Raise e).
Proof.
  intros s.
  apply (zero_cycles_never_return (R:=B64.runtime) s 1000000000%Z).
  cbn. right. left.
Defined.

(** * The last cluster, on the runtime *)

(** Every cluster but the last has at least 3 points. *)
Lemma steps_closed {R : Runtime} (pts : list (Z * float)) :
  ∀ (closed : list (list (Z * float))) (cur : list (Z * float))
    (closed' : list (list (Z * float))) (cur' : list (Z * float)),
    Forall (λ c, 3 ≤ length c)%nat closed →
    for_each Builder.cluster_step (closed ++ [cur]) pts = Ok (closed' ++ [cur']) →
    Forall (λ c, 3 ≤ length c)%nat closed'.
Proof.
  induction pts as [|p pts IH]; intros closed cur closed' cur' Hclosed; cbn [for_each].
  - intros [= [-> _]%app_inj_tail]. done.
  - rewrite step_snoc.
    destruct (step_cases cur p) as [-> | [-> | [-> Hlen]]]; cbn.
    + by apply IH.
    + by apply IH.
    + replace (closed ++ [cur; [p]]) with ((closed ++ [cur]) ++ [[p]])
        by by rewrite <- app_assoc.
      apply IH. apply Forall_app. split; [done | by apply Forall_singleton].
Qed.

(** A list of clusters of at least 2 points is trimmed, or a scan finds
    no index. *)
Lemma trims_ge_2 {R : Runtime} (clusters : list (list (Z * float))) :
  Forall (λ c, 2 ≤ length c)%nat clusters →
  mapM Builder.trim clusters = Raise TypeError
  ∨ ∃ trimmed, mapM Builder.trim clusters = Ok trimmed ∧ Forall (λ c, c ≠ []) trimmed.
Proof.
  induction 1 as [|c clusters Hc _ IH]; cbn [mapM].
  - right. by exists [].
  - destruct (Builder.trim c) as [kept|e] eqn:Hkept; cbn [mbind result_bind].
    2:{ left. by rewrite (trim_raise c e Hc Hkept). }
    apply (trim_inv c kept Hc) in Hkept as (Hne & _).
    destruct IH as [-> | (trimmed & -> & Hall)]; [by left|]. right.
    exists (kept :: trimmed). split; [done | by constructor].
Qed.

Lemma means_nonempty {R : Runtime} (trimmed : list (list (Z * float))) :
  Forall (λ c, c ≠ []) trimmed →
  mapM Builder.mean trimmed = Ok ((λ c, avg (c.*2)) <$> trimmed).
Proof.
  induction 1 as [|c trimmed Hc _ IH]; cbn [mapM]; [done|].
  by rewrite (mean_nonempty c Hc), IH.
Qed.

(** The trimming of one point, or of none. *)
Lemma trim_short {R : Runtime} (c : list (Z * float)) :
  (length c ≤ 1)%nat →
  (c = [] ∧ Builder.trim c = Raise ZeroDivisionError)
  ∨ Builder.trim c = Raise TypeError
  ∨ Builder.trim c = Ok [].
Proof.
  destruct c as [|p [|q c]]; cbn [length]; [| |lia]; intros _.
  - by left.
  - right. unfold Builder.trim.
    change (Z.to_nat (points_to_remove (Py.len [p]))) with 1%nat. cbn [repeat_n].
    destruct (Builder.trim_step [p]) as [c'|e] eqn:Hstep; cbn [mbind result_bind].
    + right. apply removal_inv in Hstep as (i & Hi & ->). cbn in Hi.
      by replace i with 0%nat by lia.
    + left. by apply removal_raise in Hstep as [[? _] | [_ ->]].
Qed.

(** X12: when the keys of a sweep are read and its rates are computed,
    the clustering pass ends with clusters of at least 3 points and a
    last cluster.  [get_bandwidth] returns only if the last cluster has at
    least 2 points, and then one value per cluster; if the last cluster
    has one point or none, it raises: [ZeroDivisionError] at the mean of
    no point, or [TypeError] where a scan of the trimming finds no
    index. *)
Theorem last_cluster_decides {R : Runtime} (s : list (string * Z)) (f : Z)
    (bytes : list Z) (bandwidth : list float) :
  Builder.keys s = Ok bytes → Builder.rates bytes (s.*2) f = Ok bandwidth →
  ∃ (closed : list (list (Z * float))) (last : list (Z * float)),
    Builder.clustering (zip bytes bandwidth) = Ok (closed ++ [last])
    ∧ Forall (λ c, 3 ≤ length c)%nat closed
    ∧ (∀ level_bandwidth,
         Builder.get_bandwidth s f = Ok level_bandwidth →
         (2 ≤ length last)%nat
         ∧ length level_bandwidth = (length closed + 1)%nat)
    ∧ ((length last ≤ 1)%nat →
       Builder.get_bandwidth s f = Raise ZeroDivisionError
       ∨ Builder.get_bandwidth s f = Raise TypeError).
Proof.
  intros Hkeys Hrates.
  destruct (steps_total (zip bytes bandwidth) []) as (closed & last & Hclusters).
  pose proof (steps_closed _ [] [] closed last (Forall_nil_2 _) Hclusters) as Hclosed.
  exists closed, last. split; [done|]. split; [done|].
  rewrite (get_bandwidth_unfold s f bytes _ Hkeys Hrates).
  unfold Builder.clustering. rewrite Hclusters. cbn [mbind result_bind].
  assert (Forall (λ c : list (Z * float), 2 ≤ length c)%nat closed) as Hclosed2.
  { eapply Forall_impl; [exact Hclosed|]. intros c Hc. cbn beta in Hc |- *. lia. }
  split.
  - intros lv Hlv. pose proof (levels_inv _ _ Hlv) as Hall.
    split; [|rewrite <- (Forall2_length _ _ _ Hall), length_app; cbn; lia].
    apply Forall2_app_inv_l in Hall as (lv1 & lv2 & _ & Hlast & _).
    apply Forall2_cons_inv_l in Hlast as (level & ? & (kept & Hkept & Hne & _) & _).
    destruct (decide (length last ≤ 1)%nat) as [Hshort|]; [|lia].
    destruct (trim_short last Hshort) as [[_ H] | [H | H]];
      rewrite H in Hkept; by simplify_eq.
  - intros Hshort. unfold Builder.levels.
    destruct (trims_ge_2 closed Hclosed2) as [Hraise | (trimmed & Htrim & Hne)].
    { right. by rewrite (mapM_raise_app _ _ _ _ Hraise). }
    rewrite (mapM_app_Ok _ _ _ _ Htrim), mapM_singleton.
    destruct (trim_short last Hshort) as [[_ ->] | [-> | ->]];
      cbn [mbind result_bind fmap result_fmap]; [by left | by right |].
    left. rewrite (mapM_app_Ok _ _ _ _ (means_nonempty trimmed Hne)). done.
Qed.

(** An instance on binary64: a sweep whose last point stands alone. *)
Lemma last_cluster_decides_witness :
  let s := [("64", 10); ("128", 20); ("256", 40); ("512", 3200)]%Z in
  let a := b64 6710886400000000 (-20) in
  let b := b64 5368709120000000 (-25) in
  ∃ (closed : list (list (Z * spec_float))) (last : list (Z * spec_float)),
    Builder.clustering (R:=B64.runtime) (zip [64; 128; 256; 512]%Z [a; a; a; b])
    = Ok (closed ++ [last])
    ∧ Forall (λ c, 3 ≤ length c)%nat closed
    ∧ (∀ level_bandwidth,
         Builder.get_bandwidth (R:=B64.runtime) s 1000000000 = Ok level_bandwidth →
         (2 ≤ length last)%nat
         ∧ length level_bandwidth = (length closed + 1)%nat)
    ∧ ((length last ≤ 1)%nat →
       Builder.get_bandwidth (R:=B64.runtime) s 1000000000 = Raise ZeroDivisionError
       ∨ Builder.get_bandwidth (R:=B64.runtime) s 1000000000 = Raise TypeError).
Proof.
  intros s a b.
  apply (last_cluster_decides (R:=B64.runtime) s 1000000000%Z [64; 128; 256; 512]%Z
           [a; a; a; b]); by_eval.
Defined.

(** * The point that a removal takes, on the runtime *)

Lemma elem_of_zip_seq {A} (l : list A) (d : A) (j : nat) :
  (d, j) ∈ zip l (seq 0 (length l)) ↔ l !! j = Some d.
Proof.
  rewrite list_elem_of_lookup. split.
  - intros (k & (x & y & [= -> ->] & Hx & Hy)%lookup_zip_with_Some).
    apply lookup_seq in Hy as [-> _]. done.
  - intros Hj. exists j. apply lookup_zip_with_Some. exists d, j.
    split; [done|]. split; [done|]. apply lookup_seq.
    split; [done|]. by apply lookup_lt_Some in Hj.
Qed.

(** The scan holds a deviation that no deviation met so far exceeds. *)
Lemma scan_greatest {R : Runtime} `{!RuntimeLaws R} (items seen : list (float * nat))
    (st : float * option nat) :
  Forall (λ item : float * nat, flt st.1 item.1 = false) seen →
  (∀ i, st.2 = Some i → (st.1, i) ∈ seen) →
  Forall (λ item : float * nat,
            flt (foldl Builder.argmax_step st items).1 item.1 = false)
         (seen ++ items)
  ∧ (∀ i, (foldl Builder.argmax_step st items).2 = Some i →
          ((foldl Builder.argmax_step st items).1, i) ∈ seen ++ items).
Proof.
  revert seen st. induction items as [|[dev idx] items IH]; intros seen st Hall Hin;
    cbn [foldl].
  - by rewrite (right_id_L [] (++)).
  - replace (seen ++ (dev, idx) :: items) with ((seen ++ [(dev, idx)]) ++ items)
      by by rewrite <- app_assoc.
    unfold Builder.argmax_step at 2 4 6. destruct (flt st.1 dev) eqn:Hdev; apply IH.
    + apply Forall_app. split; [|apply Forall_singleton, flt_irrefl].
      eapply Forall_impl; [exact Hall|]. intros [z k] Hz. cbn [fst] in Hz |- *.
      destruct (flt dev z) eqn:Hdz; [|done].
      by rewrite (flt_trans st.1 dev z Hdev Hdz) in Hz.
    + intros i [= <-]. apply elem_of_app. right. by left.
    + apply Forall_app. split; [done | by apply Forall_singleton].
    + intros i Hi. apply elem_of_app. left. by apply Hin.
Qed.

(** X5: each removal takes a point of the cluster whose deviation from
    the mean, as the runtime computes it, no deviation of the cluster
    exceeds. *)
Theorem removal_takes_greatest {R : Runtime} `{!RuntimeLaws R}
    (c c' : list (Z * float)) :
  Builder.trim_step c = Ok c' →
  ∃ (i : nat) (p : Z * float),
    c !! i = Some p ∧ c' = delete i c
    ∧ Forall (λ q : Z * float,
                flt (fabs (fsub p.2 (avg (c.*2)))) (fabs (fsub q.2 (avg (c.*2))))
                = false) c.
Proof.
  unfold Builder.trim_step. intros (a & [Hne ->]%mean_inv & Hpop)%bind_Ok_inv.
  unfold Py.pop in Hpop. destruct (Builder.argmax _) as [i|] eqn:Hi; [|done].
  case_decide as Hlt; [|done]. injection Hpop as <-.
  destruct (lookup_lt_is_Some_2 c i) as [p Hp]; [done|].
  exists i, p. split; [done|]. split; [done|].
  unfold Builder.argmax in Hi.
  set (dev := λ q : Z * float, fabs (fsub q.2 (avg (c.*2)))) in *.
  destruct (scan_greatest (zip (dev <$> c) (seq 0 (length (dev <$> c)))) []
              (neg_inf, None)) as [Hall Hin]; [done | done |].
  cbn [app] in Hall, Hin. specialize (Hin i Hi).
  apply elem_of_zip_seq in Hin. rewrite list_lookup_fmap, Hp in Hin.
  injection Hin as Hin. rewrite <- Hin in Hall.
  apply Forall_forall. intros q Hq.
  apply list_elem_of_lookup in Hq as [j Hj].
  rewrite Forall_forall in Hall. apply (Hall (dev q, j)).
  apply elem_of_zip_seq. by rewrite list_lookup_fmap, Hj.
Qed.

(** An instance on binary64: of the rates 1, 2 and 6, whose mean is 3,
    the removal takes 6. *)
Lemma removal_takes_greatest_witness :
  let c := [(1%Z, B64.of_Z 1); (2%Z, B64.of_Z 2); (3%Z, B64.of_Z 6)] in
  ∃ (i : nat) (p : Z * spec_float),
    c !! i = Some p ∧ [(1%Z, B64.of_Z 1); (2%Z, B64.of_Z 2)] = delete i c
    ∧ Forall (λ q : Z * spec_float,
                SFltb (SFabs (SFsub B64.prec B64.emax p.2 (avg (R:=B64.runtime) (c.*2))))
                      (SFabs (SFsub B64.prec B64.emax q.2 (avg (R:=B64.runtime) (c.*2))))
                = false) c.
Proof.
  intros c.
  apply (removal_takes_greatest (R:=B64.runtime) c
           [(1%Z, B64.of_Z 1); (2%Z, B64.of_Z 2)]).
  by_eval.
Defined.

(** * Binary64: rounding never yields NaN *)

Lemma shr_1_nonneg (mrs : shr_record) : (0 ≤ shr_m mrs)%Z → (0 ≤ shr_m (shr_1 mrs))%Z.
Proof. destruct mrs as [[|[p|p|]|p] r s]; cbn; lia. Qed.

Lemma iter_shr_1_nonneg (p : positive) (mrs : shr_record) :
  (0 ≤ shr_m mrs)%Z → (0 ≤ shr_m (SpecFloat.iter_pos shr_1 p mrs))%Z.
Proof.
  revert mrs. induction p as [p IH|p IH|]; intros mrs Hm; cbn [SpecFloat.iter_pos].
  - by apply IH, IH, shr_1_nonneg.
  - by apply IH, IH.
  - by apply shr_1_nonneg.
Qed.

Lemma shr_fexp_nonneg (m e : Z) (l : location) :
  (0 ≤ m)%Z → (0 ≤ shr_m (shr_fexp B64.prec B64.emax m e l).1)%Z.
Proof.
  intros Hm. unfold shr_fexp, shr.
  assert (0 ≤ shr_m (shr_record_of_loc m l))%Z by (by destruct l as [|[]]).
  destruct (_ - e)%Z; cbn [fst]; [done | by apply iter_shr_1_nonneg | done].
Qed.

Lemma round_nearest_even_nonneg (m : Z) (l : location) :
  (0 ≤ m)%Z → (0 ≤ round_nearest_even m l)%Z.
Proof. intros Hm. destruct l as [|[]]; cbn; [done| |done|lia]. destruct (Z.even m); lia. Qed.

Lemma binary_round_aux_not_nan (s : bool) (m e : Z) (l : location) :
  (0 ≤ m)%Z → binary_round_aux B64.prec B64.emax s m e l ≠ S754_nan.
Proof.
  intros Hm. unfold binary_round_aux.
  pose proof (shr_fexp_nonneg m e l Hm) as H1.
  destruct (shr_fexp B64.prec B64.emax m e l) as [mrs' e']. cbn [fst] in H1.
  pose proof (shr_fexp_nonneg _ e' loc_Exact
                (round_nearest_even_nonneg _ (loc_of_shr_record mrs') H1)) as H2.
  destruct (shr_fexp B64.prec B64.emax _ e' loc_Exact) as [mrs'' e'']. cbn [fst] in H2.
  destruct (shr_m mrs'') as [|p|p]; [done| |lia]. by destruct (_ <=? _)%Z.
Qed.

Lemma binary_normalize_not_nan (m e : Z) (szero : bool) :
  binary_normalize B64.prec B64.emax m e szero ≠ S754_nan.
Proof.
  destruct m as [|p|p]; cbn [binary_normalize]; [done| |];
    unfold binary_round; destruct (shl_align _ _ _); by apply binary_round_aux_not_nan.
Qed.

(** * Binary64: the deviations of finite rates *)

Lemma SFadd_not_nan (x y : spec_float) :
  x ≠ S754_nan → B64.is_finite y = true → SFadd B64.prec B64.emax x y ≠ S754_nan.
Proof.
  destruct x as [sx|sx| |sx mx ex], y as [sy|sy| |sy my ey]; try done; intros _ _.
  - by destruct sx, sy.
  - apply binary_normalize_not_nan.
Qed.

Lemma sum_not_nan (xs : list spec_float) (acc : spec_float) :
  acc ≠ S754_nan → Forall (λ x, B64.is_finite x = true) xs →
  foldl (SFadd B64.prec B64.emax) acc xs ≠ S754_nan.
Proof.
  intros Hacc Hxs. revert acc Hacc.
  induction Hxs as [|x xs Hx _ IH]; intros acc Hacc; cbn [foldl]; [done|].
  by apply IH, SFadd_not_nan.
Qed.

Lemma SFdiv_core_nonneg (m1 m2 : positive) (e1 e2 : Z) :
  (0 ≤ (SFdiv_core_binary B64.prec B64.emax (Zpos m1) e1 (Zpos m2) e2).1.1)%Z.
Proof.
  unfold SFdiv_core_binary.
  set (s := (_ - _ - _)%Z). set (m' := match s with Z0 => _ | Zpos _ => _ | Zneg _ => _ end).
  assert (0 ≤ m')%Z as Hm'.
  { subst m'. destruct s; [done| |done]. by apply Z.shiftl_nonneg. }
  pose proof (Z.div_pos m' (Zpos m2) Hm' eq_refl) as Hq. unfold Z.div in Hq.
  by destruct (Z.div_eucl m' (Zpos m2)).
Qed.

Lemma div_len_not_nan (x : spec_float) (n : nat) :
  x ≠ S754_nan → (0 < n)%nat → B64.div_len x n ≠ S754_nan.
Proof.
  intros Hx Hn. unfold B64.div_len.
  destruct (Z.of_nat n) as [|p|p] eqn:Hp; [lia| |lia]. cbn [B64.operand].
  destruct x as [sx|sx| |sx mx ex]; try done. cbn [SFdiv].
  pose proof (SFdiv_core_nonneg mx p ex 0) as Hq.
  destruct (SFdiv_core_binary _ _ _ _ _ _) as [[mz ez] lz]. cbn [fst] in Hq.
  by apply binary_round_aux_not_nan.
Qed.

Lemma SFsub_not_nan (x a : spec_float) :
  B64.is_finite x = true → a ≠ S754_nan → SFsub B64.prec B64.emax x a ≠ S754_nan.
Proof.
  destruct x as [sx|sx| |sx mx ex], a as [sa|sa| |sa ma ea]; try done; intros _ _.
  - by destruct sx, sa.
  - apply binary_normalize_not_nan.
Qed.

(** A deviation that is a number is greater than [-math.inf]. *)
Lemma neg_inf_lt_abs (y : spec_float) :
  y ≠ S754_nan → SFltb (S754_infinity true) (SFabs y) = true.
Proof. by destruct y. Qed.

(** The mean of finite rates is a number, perhaps infinite. *)
Lemma avg_not_nan (rs : list spec_float) :
  rs ≠ [] → Forall (λ x, B64.is_finite x = true) rs → avg (R:=B64.runtime) rs ≠ S754_nan.
Proof.
  intros Hne Hrs. unfold avg. cbn [div_len fsum B64.runtime].
  apply div_len_not_nan; [by apply sum_not_nan | destruct rs; [done | cbn; lia]].
Qed.

(** A rate that passes the test of line 33 is finite, and so is the
    mean. *)
Lemma near_finite (r a : spec_float) :
  Builder.near (R:=B64.runtime) r a = true →
  B64.is_finite r = true ∧ B64.is_finite a = true.
Proof.
  unfold Builder.near. cbn [flt fabs fsub fmul B64.runtime Builder.CLUSTER_THRESHOLD lit_0_2].
  generalize (SFmul B64.prec B64.emax B64.lit_0_2 a). intros t.
  destruct r as [sr|sr| |sr mr er], a as [sa|sa| |sa ma ea]; try done;
    try (by destruct sr, sa, t as [[]|[]| |[] ? ?]).
Qed.

(** * Binary64: clusters of finite rates *)

(** The scan finds an index when the first deviation is greater than
    [-math.inf]. *)
Lemma argmax_first {R : Runtime} (d : float) (ds : list float) :
  flt neg_inf d = true → ∃ i, Builder.argmax (d :: ds) = Some i.
Proof.
  intros Hd. unfold Builder.argmax. cbn [length seq zip_with foldl].
  unfold Builder.argmax_step at 2. cbn [fst]. rewrite Hd.
  destruct (scan_held (zip ds (seq 1 (length ds))) d 0%nat) as (d' & j & -> & _).
  by exists j.
Qed.

(** A removal from a cluster of finite rates finds its index. *)
Lemma b64_removal_finite (c : list (Z * float64)) :
  c ≠ [] → Forall (λ p, B64.is_finite p.2 = true) c →
  ∃ i, (i < length c)%nat ∧ Builder.trim_step c = Ok (delete i c).
Proof.
  intros Hne Hfin. unfold Builder.trim_step.
  rewrite (mean_nonempty c Hne). cbn [mbind result_bind].
  assert (avg (c.*2) ≠ S754_nan) as Ha.
  { apply avg_not_nan; [by destruct c|]. by apply Forall_fmap. }
  generalize dependent (avg (c.*2)). intros a Ha.
  destruct c as [|p c]; [done|]. apply Forall_cons in Hfin as [Hp Hfin].
  rewrite fmap_cons.
  destruct (argmax_first (R:=B64.runtime) (fabs (fsub p.2 a))
              ((λ p0 : Z * float64, fabs (fsub p0.2 a)) <$> c)) as [i Hi].
  { apply neg_inf_lt_abs. by apply SFsub_not_nan. }
  pose proof (argmax_lt _ _ Hi) as Hlt. cbn [length] in Hlt.
  rewrite length_fmap in Hlt. rewrite Hi. exists i. split; [done|].
  unfold Py.pop. by rewrite decide_True.
Qed.

Lemma b64_repeat_trim_finite (k : nat) (c : list (Z * float64)) :
  (k ≤ length c)%nat → Forall (λ p, B64.is_finite p.2 = true) c →
  ∃ kept, repeat_n k Builder.trim_step c = Ok kept.
Proof.
  revert c. induction k as [|k IH]; intros c Hk Hfin; cbn [repeat_n]; [by eexists|].
  destruct (b64_removal_finite c) as (i & Hi & ->); [|done|].
  { intros ->. cbn in Hk. lia. }
  cbn [mbind result_bind]. apply IH; [|by apply Forall_delete].
  rewrite length_delete by by apply lookup_lt_is_Some. lia.
Qed.

(** The trimming of a cluster of finite rates does not raise. *)
Lemma b64_trim_finite (c : list (Z * float64)) :
  c ≠ [] → Forall (λ p, B64.is_finite p.2 = true) c →
  ∃ kept, Builder.trim c = Ok kept.
Proof.
  intros Hne Hfin. apply b64_repeat_trim_finite; [|done].
  destruct c as [|p [|q c]]; [done | by vm_compute |].
  destruct (removals_ge_2 (p :: q :: c)) as [-> ?]; [cbn [length]; lia | lia].
Qed.

(** The mean of one rate is finite only if the rate is. *)
Lemma avg_singleton_finite (q : float64) :
  B64.is_finite (avg (R:=B64.runtime) [q]) = true → B64.is_finite q = true.
Proof. by destruct q as [[]|[]| |[] m e]. Qed.

Lemma b64_step_settled (cur : list (Z * float64)) (p : Z * float64)
    (clusters : list (list (Z * float64))) :
  settled cur → Builder.cluster_step [cur] p = Ok clusters →
  Forall settled clusters.
Proof.
  intros Hcur. destruct (decide (cur = [])) as [->|Hne].
  { rewrite step_first. intros [= <-]. apply Forall_singleton. left. cbn. lia. }
  destruct (Builder.near p.2 (avg (cur.*2))) eqn:Hnear.
  - rewrite (step_join cur p Hne Hnear). intros [= <-]. apply Forall_singleton. right.
    apply near_finite in Hnear as [Hp Ha].
    apply Forall_app. split; [|by apply Forall_singleton].
    destruct Hcur as [Hlen | Hfin]; [|done].
    destruct cur as [|q [|q' cur]]; [done| |cbn in Hlen; lia].
    apply Forall_singleton. by apply avg_singleton_finite.
  - destruct (decide (length cur < 3)%nat).
    + rewrite (step_restart cur p Hne Hnear) by done. intros [= <-].
      apply Forall_singleton. left. cbn. lia.
    + rewrite (step_close cur p Hnear) by lia. intros [= <-].
      constructor; [done|]. apply Forall_singleton. left. cbn. lia.
Qed.

Lemma b64_steps_settled (pts : list (Z * float64))
    (closed : list (list (Z * float64))) (cur : list (Z * float64))
    (clusters : list (list (Z * float64))) :
  Forall settled (closed ++ [cur]) →
  for_each Builder.cluster_step (closed ++ [cur]) pts = Ok clusters →
  Forall settled clusters.
Proof.
  revert closed cur. induction pts as [|p pts IH]; intros closed cur Hall; cbn [for_each].
  - by intros [= <-].
  - rewrite step_snoc. apply Forall_app in Hall as [Hclosed Hcur].
    rewrite Forall_singleton in Hcur.
    destruct (step_cases cur p) as [H | [H | [H _]]]; rewrite H;
      cbn [fmap result_fmap mbind result_bind];
      pose proof (b64_step_settled cur p _ Hcur H) as Hcs.
    + apply IH. apply Forall_app. by split.
    + apply IH. apply Forall_app. by split.
    + replace (closed ++ [cur; [p]]) with ((closed ++ [cur]) ++ [[p]])
        by by rewrite <- app_assoc.
      apply IH. rewrite <- app_assoc. apply Forall_app. by split.
Qed.

(** * Binary64: the outcome of [get_bandwidth] *)

Lemma b64_trims_finite (clusters : list (list (Z * float64))) :
  Forall (λ c, (2 ≤ length c)%nat ∧ Forall (λ p, B64.is_finite p.2 = true) c) clusters →
  ∃ trimmed, mapM Builder.trim clusters = Ok trimmed
             ∧ Forall (λ c, c ≠ []) trimmed.
Proof.
  intros Hall.
  destruct (trims_ge_2 clusters) as [Hraise | Hok]; [| |done].
  { eapply Forall_impl; [exact Hall|]. by intros c [? _]. }
  apply mapM_Raise_inv in Hraise as (c & Hc & Hraise).
  rewrite Forall_forall in Hall. destruct (Hall c Hc) as [Hlen Hfin].
  destruct (b64_trim_finite c) as [kept Hkept]; [|done|congruence].
  intros ->. cbn in Hlen. lia.
Qed.

(** Clusters of at least two finite rates all have a level. *)
Lemma b64_levels_finite (clusters : list (list (Z * float64))) :
  Forall (λ c, (2 ≤ length c)%nat ∧ Forall (λ p, B64.is_finite p.2 = true) c) clusters →
  ∃ lv, Builder.levels clusters = Ok lv
        ∧ Forall2 (λ c level, level_of (rates_of c) level) clusters lv.
Proof.
  intros Hall.
  destruct (levels_ge_2 clusters) as [Hraise | Hlv]; [| |done].
  { eapply Forall_impl; [exact Hall|]. by intros c [? _]. }
  destruct (b64_trims_finite clusters Hall) as (trimmed & Htrim & Hne).
  unfold Builder.levels in Hraise. rewrite Htrim in Hraise. cbn [mbind result_bind] in Hraise.
  by rewrite (means_nonempty trimmed Hne) in Hraise.
Qed.

(** One point whose rate is not finite: the deviation is NaN, the scan
    finds no index. *)
Lemma b64_trim_not_finite (p : Z * float64) :
  B64.is_finite p.2 = false → Builder.trim [p] = Raise TypeError.
Proof. destruct p as [b [[]|[]| |[] m e]]; try done; intros _; by vm_compute. Qed.

(** The clustering pass on binary64 ends with settled clusters, of
    which all but the last have at least 3 points. *)
Lemma b64_clustering (pts : list (Z * float64)) :
  ∃ (closed : list (list (Z * float64))) (last : list (Z * float64)),
    Builder.clustering pts = Ok (closed ++ [last])
    ∧ Forall (λ c : list (Z * float64),
                (2 ≤ length c)%nat ∧ Forall (λ p : Z * float64, B64.is_finite p.2 = true) c)
             closed
    ∧ settled last.
Proof.
  destruct (steps_total (R:=B64.runtime) pts []) as (closed & last & Hclusters).
  pose proof (steps_closed (R:=B64.runtime) _ [] [] closed last (Forall_nil_2 _) Hclusters)
    as Hclosed.
  assert (Forall settled (closed ++ [last])) as Hsettled.
  { apply (b64_steps_settled pts [] [] _); [|done].
    apply Forall_singleton. left. cbn. lia. }
  apply Forall_app in Hsettled as [Hsettled Hlast]. rewrite Forall_singleton in Hlast.
  exists closed, last. split; [done|]. split; [|done].
  apply Forall_forall. intros c Hc. rewrite Forall_forall in Hclosed, Hsettled.
  specialize (Hclosed c Hc). cbn beta in Hclosed. split; [lia|].
  destruct (Hsettled c Hc) as [? | ?]; [lia | done].
Qed.

(** The levels after clusters of finite rates: those of a last cluster
    of one point or none. *)
Lemma b64_levels_short (closed : list (list (Z * float64))) (last : list (Z * float64)) :
  Forall (λ c : list (Z * float64),
            (2 ≤ length c)%nat ∧ Forall (λ p : Z * float64, B64.is_finite p.2 = true) c)
         closed →
  (last = [] → Builder.levels (closed ++ [last]) = Raise ZeroDivisionError)
  ∧ (∀ p, last = [p] →
          Builder.levels (closed ++ [last])
          = Raise (if B64.is_finite p.2 then ZeroDivisionError else TypeError)).
Proof.
  intros Hfinite.
  destruct (b64_trims_finite closed Hfinite) as (trimmed & Htrim & Hne).
  split.
  - intros ->. unfold Builder.levels.
    by rewrite (mapM_app_Ok _ _ _ _ Htrim).
  - intros p ->. unfold Builder.levels.
    rewrite (mapM_app_Ok _ _ _ _ Htrim), mapM_singleton.
    destruct (B64.is_finite p.2) eqn:Hp.
    + destruct (b64_trim_finite [p]) as [kept Hkept]; [done | by apply Forall_singleton |].
      destruct (trim_short (R:=B64.runtime) [p]) as [[? _] | [H | H]];
        [cbn; lia | done | congruence |].
      rewrite H. cbn [mbind result_bind fmap result_fmap].
      by rewrite (mapM_app_Ok _ _ _ _ (means_nonempty trimmed Hne)).
    + by rewrite (b64_trim_not_finite p Hp).
Qed.

(** X1: on binary64, when the keys of a sweep are read and its rates
    are computed, the last cluster of the clustering pass decides the
    outcome of [get_bandwidth]: with at least 2 points in it, one value
    per cluster is returned, the mean of the rates that the trimming
    keeps of the cluster; with no point (the empty sweep) or one point
    of a finite rate, the mean of no point raises
    [ZeroDivisionError]; with one point of an infinite rate, the
    deviation is NaN, the scan finds no index and [pop] raises
    [TypeError]. *)
Theorem last_cluster_decides_on_binary64 (s : list (string * Z)) (f : Z)
    (bytes : list Z) (bandwidth : list float64) :
  Builder.keys (R:=B64.runtime) s = Ok bytes →
  Builder.rates (R:=B64.runtime) bytes (s.*2) f = Ok bandwidth →
  ∃ (closed : list (list (Z * float64))) (last : list (Z * float64)),
    Builder.clustering (R:=B64.runtime) (zip bytes bandwidth) = Ok (closed ++ [last])
    ∧ ((2 ≤ length last)%nat →
       ∃ level_bandwidth,
         Builder.get_bandwidth (R:=B64.runtime) s f = Ok level_bandwidth
         ∧ Forall2 (λ c level, level_of (R:=B64.runtime) (rates_of c) level)
                   (closed ++ [last]) level_bandwidth)
    ∧ (last = [] →
       Builder.get_bandwidth (R:=B64.runtime) s f = Raise ZeroDivisionError)
    ∧ (∀ p, last = [p] →
            Builder.get_bandwidth (R:=B64.runtime) s f
            = Raise (if B64.is_finite p.2 then ZeroDivisionError else TypeError)).
Proof.
  intros Hkeys Hrates.
  destruct (b64_clustering (zip bytes bandwidth))
    as (closed & last & Hclusters & Hfinite & Hlast).
  exists closed, last. split; [done|].
  rewrite (get_bandwidth_unfold (R:=B64.runtime) s f bytes bandwidth Hkeys Hrates).
  rewrite Hclusters. cbn [mbind result_bind].
  split; [|by apply b64_levels_short].
  intros Hlen. apply b64_levels_finite. apply Forall_app. split; [done|].
  apply Forall_singleton. split; [done|]. destruct Hlast as [? | ?]; [lia | done].
Qed.

(** An instance: the memory scenario, whose last cluster has 3
    points. *)
Lemma last_cluster_decides_on_binary64_witness :
  let a := b64 6710886400000000 (-20) in
  let b := b64 5368709120000000 (-25) in
  ∃ (closed : list (list (Z * spec_float))) (last : list (Z * spec_float)),
    Builder.clustering (R:=B64.runtime)
      (zip [64; 128; 256; 512; 1024]%Z [a; a; b; b; b]) = Ok (closed ++ [last])
    ∧ ((2 ≤ length last)%nat →
       ∃ level_bandwidth,
         Builder.get_bandwidth (R:=B64.runtime) memory_benchmark 1000000000
         = Ok level_bandwidth
         ∧ Forall2 (λ c level, level_of (R:=B64.runtime) (rates_of c) level)
                   (closed ++ [last]) level_bandwidth)
    ∧ (last = [] →
       Builder.get_bandwidth (R:=B64.runtime) memory_benchmark 1000000000
       = Raise ZeroDivisionError)
    ∧ (∀ p, last = [p] →
            Builder.get_bandwidth (R:=B64.runtime) memory_benchmark 1000000000
            = Raise (if B64.is_finite p.2 then ZeroDivisionError else TypeError)).
Proof.
  intros a b.
  apply (last_cluster_decides_on_binary64 memory_benchmark 1000000000%Z
           [64; 128; 256; 512; 1024]%Z [a; a; b; b; b]); by_eval.
Defined.

(** * Binary64: what the extractors raise *)

Ltac in_list := repeat first [by left | right].

Lemma b64_int_raises (key : string) (e : exn) : B64.int key = Raise e → e = ValueError.
Proof. unfold B64.int. destruct (match _ with [] => _ | _ :: _ => _ end); by intros [= <-]. Qed.

Lemma b64_keys_raise (s : list (string * Z)) (e : exn) :
  Builder.keys (R:=B64.runtime) s = Raise e → e = ValueError.
Proof. intros (key & _ & Hkey)%mapM_Raise_inv. by apply b64_int_raises in Hkey. Qed.

Lemma b64_rates_raise (bytes cycles : list Z) (f : Z) (e : exn) :
  Builder.rates (R:=B64.runtime) bytes cycles f = Raise e →
  e = ZeroDivisionError ∨ e = OverflowError.
Proof.
  intros ([b c] & _ & H)%mapM_Raise_inv.
  apply bind_Raise_inv in H as [H | (q & _ & H)].
  - cbn [truediv B64.runtime] in H. unfold B64.truediv in H.
    repeat case_decide; try (injection H as <-; by left); try done.
    destruct (B64.is_finite _); [done|]. injection H as <-. by right.
  - cbn [rmul B64.runtime] in H. unfold B64.rmul, B64.float_of_int in H.
    destruct (B64.is_finite _); [done|]. cbn in H. injection H as <-. by right.
Qed.

Lemma b64_get_bandwidth_raises (s : list (string * Z)) (f : Z) (e : exn) :
  Builder.get_bandwidth (R:=B64.runtime) s f = Raise e →
  e ∈ [ValueError; ZeroDivisionError; OverflowError; TypeError].
Proof.
  intros H.
  destruct (Builder.keys (R:=B64.runtime) s) as [bytes|e'] eqn:Hkeys.
  2:{ unfold Builder.get_bandwidth in H. rewrite Hkeys in H. injection H as ->.
      apply b64_keys_raise in Hkeys as ->. in_list. }
  destruct (Builder.rates (R:=B64.runtime) bytes (s.*2) f) as [bandwidth|e'] eqn:Hrates.
  2:{ unfold Builder.get_bandwidth in H. rewrite Hkeys in H. cbn [mbind result_bind] in H.
      rewrite Hrates in H. injection H as ->.
      apply b64_rates_raise in Hrates as [-> | ->]; in_list. }
  rewrite (get_bandwidth_unfold (R:=B64.runtime) s f bytes bandwidth Hkeys Hrates) in H.
  destruct (b64_clustering (zip bytes bandwidth))
    as (closed & last & Hclusters & Hfinite & Hlast).
  rewrite Hclusters in H. cbn [mbind result_bind] in H.
  destruct (b64_levels_short closed last Hfinite) as [Hnone Hone].
  destruct last as [|p [|q last]].
  - rewrite Hnone in H by done. injection H as <-. in_list.
  - rewrite (Hone p) in H by done. injection H as <-.
    destruct (B64.is_finite _); in_list.
  - destruct (b64_levels_finite (closed ++ [p :: q :: last])) as (lv & Hlv & _);
      [|congruence].
    apply Forall_app. split; [done|]. apply Forall_singleton.
    split; [cbn; lia|]. destruct Hlast as [Hlen | ?]; [cbn in Hlen; lia | done].
Qed.

Lemma b64_get_peak_performance_raises (s : list (string * Z)) (f : Z) (e : exn) :
  Builder.get_peak_performance (R:=B64.runtime) s f = Raise e →
  e ∈ [ValueError; ZeroDivisionError; OverflowError].
Proof.
  unfold Builder.get_peak_performance. intros H.
  apply bind_Raise_inv in H as [H | (ops & _ & H)].
  { apply b64_keys_raise in H as ->. in_list. }
  apply bind_Raise_inv in H as [H | (perf & _ & H)].
  { apply b64_rates_raise in H as [-> | ->]; in_list. }
  destruct perf; [injection H as <-; in_list | done].
Qed.

(** X13: on binary64 [get_bandwidth] raises [ValueError] (a key that
    [int()] does not read), [ZeroDivisionError] (a zero cycle count, or a last
    cluster of one point or none), [OverflowError] (a quotient or a
    clock frequency beyond the floats) or [TypeError] (a last cluster of
    one infinite rate), and [get_peak_performance] raises [ValueError]
    (a key, or the empty sweep), [ZeroDivisionError] or
    [OverflowError]; neither raises anything else, and each of these is
    raised on some sweep. *)
Theorem extractors_raise_on_binary64 :
  (∀ (s : list (string * Z)) (f : Z) (e : exn),
     (Builder.get_bandwidth (R:=B64.runtime) s f = Raise e →
      e ∈ [ValueError; ZeroDivisionError; OverflowError; TypeError])
     ∧ (Builder.get_peak_performance (R:=B64.runtime) s f = Raise e →
        e ∈ [ValueError; ZeroDivisionError; OverflowError]))
  ∧ Builder.get_bandwidth (R:=B64.runtime) [("64 bytes", 10%Z)] 1000000000
    = Raise ValueError
  ∧ Builder.get_bandwidth (R:=B64.runtime) [("64", 0%Z)] 1000000000
    = Raise ZeroDivisionError
  ∧ Builder.get_bandwidth (R:=B64.runtime) [("64", 10%Z)] 1000000000
    = Raise ZeroDivisionError
  ∧ Builder.get_bandwidth (R:=B64.runtime) [("64", 10%Z)] (10 ^ 400)
    = Raise OverflowError
  ∧ Builder.get_bandwidth (R:=B64.runtime) [("64", 10%Z)] (10 ^ 308)
    = Raise TypeError
  ∧ Builder.get_peak_performance (R:=B64.runtime) [] 1000000000 = Raise ValueError
  ∧ Builder.get_peak_performance (R:=B64.runtime) [("100", 0%Z)] 1000000000
    = Raise ZeroDivisionError
  ∧ Builder.get_peak_performance (R:=B64.runtime) [("100", 50%Z)] (10 ^ 400)
    = Raise OverflowError.
Proof.
  split; [|repeat split; by_eval].
  intros s f e. split;
    [apply b64_get_bandwidth_raises | apply b64_get_peak_performance_raises].
Qed.

(** An instance: a key that is not a number, and the empty sweep. *)
Lemma extractors_raise_on_binary64_witness :
  ValueError ∈ [ValueError; ZeroDivisionError; OverflowError; TypeError]
  ∧ ValueError ∈ [ValueError; ZeroDivisionError; OverflowError].
Proof.
  destruct extractors_raise_on_binary64 as [Hall _].
  destruct (Hall [("64 bytes", 10%Z)] 1000000000%Z ValueError) as [Hb _].
  destruct (Hall [] 1000000000%Z ValueError) as [_ Hp].
  split; [apply Hb | apply Hp]; by_eval.
Defined.

(** * The model assembler, on binary64 *)

(** X9: the failures of [build_carm] on binary64, in the order in which
    they are met: the key "memory" is missing; [get_bandwidth] raises
    on the memory sweep, whatever the arithmetic entry is and even when
    it is missing, and what it raises is a [ValueError], a
    [ZeroDivisionError], an [OverflowError] or a [TypeError]; the key
    "arithmetic" is missing; [get_peak_performance] raises on the
    arithmetic sweep, a [ValueError], a [ZeroDivisionError] or an
    [OverflowError].  [build_carm] fails in no other way. *)
Theorem build_carm_failures_on_binary64
    (benchmark_results : gmap string (list (string * Z))) (f : Z) (e : raised) :
  Builder.build_carm (R:=B64.runtime) benchmark_results f = Fail e ↔
    (benchmark_results !! "memory" = None ∧ e = KeyError "memory")
    ∨ (∃ memory,
         benchmark_results !! "memory" = Some memory
         ∧ ((∃ x, Builder.get_bandwidth (R:=B64.runtime) memory f = Raise x
                  ∧ e = Builtin x
                  ∧ x ∈ [ValueError; ZeroDivisionError; OverflowError; TypeError])
            ∨ (∃ level_bandwidth,
                 Builder.get_bandwidth (R:=B64.runtime) memory f = Ok level_bandwidth
                 ∧ ((benchmark_results !! "arithmetic" = None
                     ∧ e = KeyError "arithmetic")
                    ∨ (∃ arithmetic x,
                         benchmark_results !! "arithmetic" = Some arithmetic
                         ∧ Builder.get_peak_performance (R:=B64.runtime) arithmetic f
                           = Raise x
                         ∧ e = Builtin x
                         ∧ x ∈ [ValueError; ZeroDivisionError; OverflowError]))))).
Proof.
  unfold Builder.build_carm, Builder.getitem.
  destruct (benchmark_results !! "memory") as [memory|] eqn:Hmem.
  2:{ split; [intros [= <-]; by left|]. by intros [[_ ->]|(memory & [=] & _)]. }
  destruct (Builder.get_bandwidth memory f) as [lv|e1] eqn:Hbw.
  2:{ split.
      - intros [= <-]. right. exists memory. split; [done|]. left. exists e1.
        split; [done|]. split; [done|]. by apply (b64_get_bandwidth_raises memory f).
      - intros [[[=] _]|(memory' & [= <-] & [(x & Hx & -> & _)|(lv & Hlv & _)])];
          congruence. }
  destruct (benchmark_results !! "arithmetic") as [arithmetic|] eqn:Har.
  2:{ split.
      - intros [= <-]. right. exists memory. split; [done|]. right.
        exists lv. split; [done|]. by left.
      - intros [[[=] _]|(memory' & [= <-] & [(x & Hx & _)|(lv' & _ & [[_ ->]|(ar & x & [=] & _)])])];
          [congruence | done]. }
  destruct (Builder.get_peak_performance arithmetic f) as [m|e2] eqn:Hpp.
  - split; [done|].
    intros [[[=] _]|(memory' & [= <-] & [(x & Hx & _)|(lv' & _ & [[[=] _]|(ar & x & [= <-] & Hx & _)])])];
      congruence.
  - split.
    + intros [= <-]. right. exists memory. split; [done|]. right.
      exists lv. split; [done|]. right. exists arithmetic, e2.
      split; [done|]. split; [done|]. split; [done|].
      by apply (b64_get_peak_performance_raises arithmetic f).
    + intros [[[=] _]|(memory' & [= <-] & [(x & Hx & _)|(lv' & _ & [[[=] _]|(ar & x & [= <-] & Hx & -> & _)])])];
        congruence.
Qed.
